(** * caddy-anubis: the host/domain resolver and the per-domain dispatcher

    A shallow embedding of [caddy_anubis.go].  Go strings are byte
    sequences and are modelled by [string] (a list of 8-bit [ascii]);
    Go [int] indices are modelled by [Z]; a slice expression that Go
    would reject at run time (a panic) is [None]. *)

From Stdlib Require Import ZArith Lia Bool List Ascii String.
From stdpp Require Import base option gmap strings.

Local Open Scope string_scope.
Local Open Scope Z_scope.
Local Open Scope list_scope.

(** ** Go string primitives used by the resolver *)

Module GoString.

(** [len(s)] *)
Definition len (s : string) : Z := Z.of_nat (String.length s).

Fixpoint drop (n : nat) (s : string) : string :=
  match n, s with
  | O, _ => s
  | S _, EmptyString => EmptyString
  | S n', String _ s' => drop n' s'
  end.

Fixpoint take (n : nat) (s : string) : string :=
  match n, s with
  | O, _ => EmptyString
  | S _, EmptyString => EmptyString
  | S n', String c s' => String c (take n' s')
  end.

(** [s[lo:hi]]: Go panics unless [0 <= lo <= hi <= len(s)]. *)
Definition slice (s : string) (lo hi : Z) : option string :=
  if (0 <=? lo) && (lo <=? hi) && (hi <=? len s)
  then Some (take (Z.to_nat (hi - lo)) (drop (Z.to_nat lo) s))
  else None.

(** [s[:hi]] and [s[lo:]] *)
Definition slice_to (s : string) (hi : Z) : option string := slice s 0 hi.
Definition slice_from (s : string) (lo : Z) : option string := slice s lo (len s).

(** [strings.LastIndexByte(s, c)]: the index of the last occurrence of
    [c] in [s], or [-1]. *)
Fixpoint LastIndexByte (s : string) (c : ascii) : Z :=
  match s with
  | EmptyString => -1
  | String b s' =>
      let r := LastIndexByte s' c in
      if r =? -1 then (if Ascii.eqb b c then 0 else -1) else r + 1
  end.

(** [strings.HasPrefix(s, prefix)] *)
Definition HasPrefix (s prefix : string) : bool := String.prefix prefix s.

(** [strings.HasSuffix(s, suffix)]:
    [len(s) >= len(suffix) && s[len(s)-len(suffix):] == suffix] *)
Definition HasSuffix (s suffix : string) : bool :=
  (len suffix <=? len s) &&
  String.eqb (drop (Z.to_nat (len s - len suffix)) s) suffix.

(** [c] occurs in [s] *)
Fixpoint hasByte (c : ascii) (s : string) : bool :=
  match s with
  | EmptyString => false
  | String b s' => Ascii.eqb b c || hasByte c s'
  end.

(** byte order comparison [b < c] on the byte values *)
Definition byte_lt (b c : ascii) : bool := (nat_of_ascii b <? nat_of_ascii c)%nat.

End GoString.

Import GoString.

(** ** The resolver *)

(** The loop body of [validOptionalPort]: every element of [port[1:]]
    lies in ['0'..'9'].  The Go [range] walks runes; a rune that is not
    a single ASCII byte is above ['9'], and an ASCII byte is always a rune
    of its own, so the test on runes and the test on bytes agree. *)
Fixpoint all_digits (s : string) : bool :=
  match s with
  | EmptyString => true
  | String b s' =>
      if byte_lt b "0" || byte_lt "9" b then false else all_digits s'
  end.

(** [validOptionalPort] reports whether port is either an empty string
    or matches [/^:\d*$/]. *)
Definition validOptionalPort (port : string) : bool :=
  match port with
  | EmptyString => true
  | String p0 rest =>
      if negb (Ascii.eqb p0 ":") then false else all_digits rest
  end.

(** Lines 61-64 of [splitHostPort]: cut a trailing port off. *)
Definition stripPort (hostPort : string) : option (string * string) :=
  let host := hostPort in
  let port := "" in
  let colon := LastIndexByte host ":" in
  if negb (colon =? -1)
  then tl ← slice_from host colon;
       if validOptionalPort tl
       then h ← slice_to host colon;
            p ← slice_from host (colon + 1);
            Some (h, p)
       else Some (host, port)
  else Some (host, port).

(** Lines 66-68 of [splitHostPort]: unwrap a bracketed host. *)
Definition stripBrackets (host : string) : option string :=
  if HasPrefix host "[" && HasSuffix host "]"
  then slice host 1 (len host - 1)
  else Some host.

Definition splitHostPort (hostPort : string) : option (string * string) :=
  '(host, port) ← stripPort hostPort;
  host ← stripBrackets host;
  Some (host, port).

Definition splitSubDomainDomain (host : string) : option (string * string) :=
  let subdomain := "" in
  let domain := host in
  let tldPeriod := LastIndexByte host "." in
  if negb (tldPeriod =? -1)
  then withoutTLD ← slice_to host tldPeriod;
       let subdomainPeriod := LastIndexByte withoutTLD "." in
       if negb (subdomainPeriod =? -1)
       then s ← slice_to host subdomainPeriod;
            d ← slice_from host (subdomainPeriod + 1);
            Some (s, d)
       else Some (subdomain, domain)
  else Some (subdomain, domain).

(** The part of [*http.Request] that the middleware reads. *)
Record Request := mkRequest { Host : string; URLPath : string }.

Definition DomainFromRequest (r : Request) : option string :=
  '(host, _) ← splitHostPort (Host r);
  '(_, domain) ← splitSubDomainDomain host;
  Some domain.

(** ** The middleware and its collaborators *)

(** A [*libanubis.Server] is the address of a server object: equal
    pointers are the same object. *)
Abbreviation ServerPtr := nat.

(** [libanubis.Options] as [CreateAnubisServer] fills them in.  The
    [Next] field is the closure of lines 108-120; it closes over the
    middleware itself and is the same code for every server, see
    [passThrough]. *)
Record Options := mkOptions {
  CookieDomain : string;
  CookieDynamicDomain : bool;
  CookieSecure : bool;
  Policy : option nat;
  ServeRobotsTXT : bool
}.

(** A [caddyhttp.Handler]: serving a request yields a Go [error]
    ([None] is [nil]). *)
Definition Handler := Request -> option string.

(** What the challenge engine does with a request it is handed. *)
Inductive Verdict := ChallengePage | RobotsTxt | PassThrough.

(** [http.StatusTemporaryRedirect] *)
Definition StatusTemporaryRedirect : Z := 307.

(** Everything the middleware does that is visible outside it. *)
Inductive Event :=
| LogInfo (msg : string)
| LogError (msg : string)
| SetLogLevelDebug
| NewCalled (o : Options) (res : string + ServerPtr)
| Served (srv : ServerPtr) (r : Request)
| Answered (srv : ServerPtr) (r : Request) (v : Verdict)
| Redirected (r : Request) (url : string) (code : Z)
| NextServed (r : Request) (err : option string).

(** The fields of the struct, but for [logger].  The logger is nil
    until [Provision] sets it (line 138), and a log call on a nil logger
    panics: the model is of a middleware in service, that is after
    [Provision], whose log calls do not fail. *)
Record AnubisMiddleware := mkMiddleware {
  Target : option string;
  AnubisPolicy : option nat;
  AnubisServers : option (gmap string ServerPtr);
  Next : option Handler
}.

(** The middleware, the server objects allocated so far (a server's
    address is its position) and the events so far, newest first. *)
Record World := mkWorld {
  mw : AnubisMiddleware;
  heap : list Options;
  trace : list Event
}.

(** Reading a Go map, also a nil one, never fails: a missing key gives
    the zero value, here the nil pointer. *)
Definition registry (w : World) : gmap string ServerPtr :=
  default ∅ (AnubisServers (mw w)).

(** The calls of [libanubis.New] in a trace, newest first. *)
Fixpoint constructions (tr : list Event) : list (Options * (string + ServerPtr)) :=
  match tr with
  | [] => []
  | NewCalled o res :: tr' => (o, res) :: constructions tr'
  | _ :: tr' => constructions tr'
  end.

(** The requests handed to a server's [ServeHTTP], newest first. *)
Fixpoint dispatches (tr : list Event) : list (ServerPtr * Request) :=
  match tr with
  | [] => []
  | Served p r :: tr' => (p, r) :: dispatches tr'
  | _ :: tr' => dispatches tr'
  end.

Fixpoint redirects (tr : list Event) : list (Request * string * Z) :=
  match tr with
  | [] => []
  | Redirected r u c :: tr' => (r, u, c) :: redirects tr'
  | _ :: tr' => redirects tr'
  end.

Fixpoint nextCalls (tr : list Event) : list (Request * option string) :=
  match tr with
  | [] => []
  | NextServed r e :: tr' => (r, e) :: nextCalls tr'
  | _ :: tr' => nextCalls tr'
  end.

Fixpoint errorLogs (tr : list Event) : list string :=
  match tr with
  | [] => []
  | LogError msg :: tr' => msg :: errorLogs tr'
  | _ :: tr' => errorLogs tr'
  end.

(** *** A state monad with panics *)

Definition M (A : Type) : Type := World -> option (A * World).

Definition ret {A} (a : A) : M A := fun w => Some (a, w).

Definition bind {A B} (m : M A) (k : A -> M B) : M B :=
  fun w => match m w with
           | Some (a, w') => k a w'
           | None => None
           end.

Definition panic {A} : M A := fun _ => None.

Declare Scope go_scope.
Delimit Scope go_scope with go.
Notation "x <- m ;; k" := (bind m (fun x => k))
  (at level 20, m at level 99, k at level 200, only parsing) : go_scope.
Notation "' pat <- m ;; k" := (bind m (fun x => match x with pat => k end))
  (at level 20, pat pattern, m at level 99, k at level 200, only parsing) : go_scope.
Notation "m ;; k" := (bind m (fun _ => k))
  (at level 100, k at level 200, only parsing, right associativity) : go_scope.
Local Open Scope go_scope.

Definition liftOpt {A} (o : option A) : M A :=
  match o with Some a => ret a | None => panic end.

Definition getM : M AnubisMiddleware := fun w => Some (mw w, w).

Definition putM (m : AnubisMiddleware) : M unit :=
  fun w => Some (tt, mkWorld m (heap w) (trace w)).

Definition getTrace : M (list Event) := fun w => Some (trace w, w).

Definition emit (e : Event) : M unit :=
  fun w => Some (tt, mkWorld (mw w) (heap w) (e :: trace w)).

(** [new(Server)]: the address of the fresh object. *)
Definition alloc (o : Options) : M ServerPtr :=
  fun w => Some (length (heap w), mkWorld (mw w) (heap w ++ [o]) (trace w)).

Definition logInfo (msg : string) : M unit := emit (LogInfo msg).
Definition logError (msg : string) : M unit := emit (LogError msg).

(** *** The dispatcher *)

Section Dispatcher.

(** [libanubis.New] lives in the challenge-engine library.  It either
    fails with an error ([Some e]) or builds a server; the outcome may
    depend on the options and on how many calls came before, so a call
    may fail and a later one succeed. *)
Variable libanubis_New : nat -> Options -> option string.

(** What a server does with a request: answer it itself or run its
    [Next] handler.  The choice is the engine's (cookies, policy); it
    may depend on how many requests were dispatched before. *)
Variable engine : nat -> ServerPtr -> Request -> Verdict.

(** Lines 108-120: the [Next] handler given to every server.  It reads
    [m.Target] and [m.Next] when it runs.  Calling a method of the nil
    interface [m.Next] panics. *)
Definition passThrough (r : Request) : M unit :=
  logInfo ("Anubis middleware calling next" +:+ URLPath r);;
  m <- getM;;
  match Target m with
  | Some target =>
      logInfo "Target not null, redirecting";;
      emit (Redirected r target StatusTemporaryRedirect)
  | None =>
      match Next m with
      | None => panic
      | Some next =>
          let err := next r in
          emit (NextServed r err);;
          match err with
          | Some e => logError ("Anubis error when calling Next" +:+ e)
          | None => ret tt
          end
      end
  end.

(** [ServeHTTP] of a [libanubis.Server]: a nil server panics. *)
Definition Server_ServeHTTP (srv : option ServerPtr) (r : Request) : M unit :=
  match srv with
  | None => panic
  | Some p =>
      tr <- getTrace;;
      emit (Served p r);;
      match engine (length (dispatches tr)) p r with
      | PassThrough => passThrough r
      | v => emit (Answered p r v)
      end
  end.

(** The options of line 107-126 for a domain. *)
Definition serverOptions (domain : string) (m : AnubisMiddleware) : Options :=
  {| CookieDomain := domain;
     CookieDynamicDomain := true;
     CookieSecure := true;
     Policy := AnubisPolicy m;
     ServeRobotsTXT := true |}.

(** Lines 94-103 of [CreateAnubisServer]: the domain, and the server
    already registered for it, if any. *)
Definition lookupServer (r : Request) : M (string * option ServerPtr) :=
  domain <- liftOpt (DomainFromRequest r);;
  m <- getM;;
  (match AnubisServers m with
   | None => putM (mkMiddleware (Target m) (AnubisPolicy m) (Some ∅) (Next m))
   | Some _ => ret tt
   end);;
  m <- getM;;
  match default ∅ (AnubisServers m) !! domain with
  | Some server =>
      logInfo ("Anubis server already created for: " +:+ domain);;
      ret (domain, Some server)
  | None => ret (domain, None)
  end.

(** Lines 105-129: the call of [libanubis.New]. *)
Definition newServer (domain : string) : M (string + ServerPtr) :=
  logInfo ("Creating new anubis server for domain: " +:+ domain);;
  m <- getM;;
  tr <- getTrace;;
  let o := serverOptions domain m in
  match libanubis_New (length (constructions tr)) o with
  | Some err =>
      emit (NewCalled o (inl err));;
      ret (inl err)
  | None =>
      anubisServer <- alloc o;;
      emit (NewCalled o (inr anubisServer));;
      ret (inr anubisServer)
  end.

(** Line 131: [m.AnubisServers[domain] = anubisServer].  Assigning to
    an entry of a nil map panics. *)
Definition storeServer (domain : string) (anubisServer : ServerPtr) : M unit :=
  m <- getM;;
  match AnubisServers m with
  | None => panic
  | Some servers =>
      putM (mkMiddleware (Target m) (AnubisPolicy m)
              (Some (<[domain := anubisServer]> servers)) (Next m))
  end.

Definition CreateAnubisServer (r : Request) : M (option string) :=
  '(domain, server) <- lookupServer r;;
  match server with
  | Some _ => ret None
  | None =>
      res <- newServer domain;;
      match res with
      | inl err => ret (Some err)
      | inr anubisServer =>
          storeServer domain anubisServer;;
          ret None
      end
  end.

(** Lines 165-170 of [ServeHTTP]. *)
Definition delegate (domain : string) (r : Request) (next : Handler)
  : M (option string) :=
  logInfo ("Anubis middleware processing request, path: " +:+ URLPath r);;
  emit SetLogLevelDebug;;
  logInfo "Anubis middleware sending request";;
  m <- getM;;
  putM (mkMiddleware (Target m) (AnubisPolicy m) (AnubisServers m) (Some next));;
  m <- getM;;
  Server_ServeHTTP (default ∅ (AnubisServers m) !! domain) r;;
  ret None.

(** Lines 161-164 of [ServeHTTP]. *)
Definition createFailed (err : string) : M (option string) :=
  logError ("Anubis middleware create server error" +:+ err);;
  ret (Some err).

Definition ServeHTTP (r : Request) (next : Handler) : M (option string) :=
  domain <- liftOpt (DomainFromRequest r);;
  err <- CreateAnubisServer r;;
  match err with
  | Some e => createFailed e
  | None => delegate domain r next
  end.

(** A sequence of requests served one after the other; the list of the
    errors returned. *)
Fixpoint serveAll (rs : list (Request * Handler)) : M (list (option string)) :=
  match rs with
  | [] => ret []
  | (r, next) :: rs' =>
      e <- ServeHTTP r next;;
      es <- serveAll rs';;
      ret (e :: es)
  end.

End Dispatcher.

(** A middleware that has been provisioned and has not served a
    request yet: [Target] as the Caddyfile set it, the policy as
    [Provision] loaded it, no map and no downstream handler. *)
Definition newMiddleware (target : option string) (policy : option nat) : World :=
  mkWorld (mkMiddleware target policy None None) [] [].

(** *** Requests in flight at the same time

    [ServeHTTP] takes no lock.  A request in flight is a point in
    [ServeHTTP]; a step is one access to the middleware together with
    the code local to the request around it, and between two steps of a
    request any other request may move.  A schedule describes an
    execution in which the accesses happen one at a time.  Accesses to
    the map that overlap in time, on which the Go runtime aborts the
    process, are not schedules: nothing below speaks of them. *)

Inductive Pc :=
| AtEntry                                      (* lines 159, 94, 96 *)
| AtMake (domain : string)                     (* line 97: the map was nil *)
| AtLookup (domain : string)                   (* line 100 *)
| AtNew (domain : string)                      (* line 105: no server found *)
| AtStore (domain : string) (srv : ServerPtr)  (* line 131 *)
| AtDelegate (domain : string)                 (* line 165 *)
| AtDispatch (domain : string)                 (* line 169 *)
| AtPass                                       (* line 109, in the closure *)
| Finished (err : option string).

Record Task := mkTask { req : Request; downstream : Handler; pc : Pc }.

Section Interleaving.

Variable libanubis_New : nat -> Options -> option string.
Variable engine : nat -> ServerPtr -> Request -> Verdict.

(** Lines 159, 94 and 96: the domain, and whether the map is nil. *)
Definition enter (r : Request) : M Pc :=
  domain <- liftOpt (DomainFromRequest r);;
  m <- getM;;
  match AnubisServers m with
  | None => ret (AtMake domain)
  | Some _ => ret (AtLookup domain)
  end.

(** Line 97: a new, empty map replaces whatever the field holds by
    now. *)
Definition makeServers : M unit :=
  m <- getM;;
  putM (mkMiddleware (Target m) (AnubisPolicy m) (Some ∅) (Next m)).

(** Lines 100-103. *)
Definition findServer (domain : string) : M Pc :=
  m <- getM;;
  match default ∅ (AnubisServers m) !! domain with
  | Some server =>
      logInfo ("Anubis server already created for: " +:+ domain);;
      ret (AtDelegate domain)
  | None => ret (AtNew domain)
  end.

(** Lines 165-168. *)
Definition announce (r : Request) (next : Handler) : M unit :=
  logInfo ("Anubis middleware processing request, path: " +:+ URLPath r);;
  emit SetLogLevelDebug;;
  logInfo "Anubis middleware sending request";;
  m <- getM;;
  putM (mkMiddleware (Target m) (AnubisPolicy m) (AnubisServers m) (Some next)).

(** Line 169 up to the engine's decision: the server is read from the
    map and handed the request; a nil server panics. *)
Definition dispatch (domain : string) (r : Request) : M Pc :=
  m <- getM;;
  match default ∅ (AnubisServers m) !! domain with
  | None => panic
  | Some p =>
      tr <- getTrace;;
      emit (Served p r);;
      match engine (length (dispatches tr)) p r with
      | PassThrough => ret AtPass
      | v => emit (Answered p r v);; ret (Finished None)
      end
  end.

(** One step of a request in flight. *)
Definition stepPc (r : Request) (next : Handler) (p : Pc) : M Pc :=
  match p with
  | AtEntry => enter r
  | AtMake domain => makeServers;; ret (AtLookup domain)
  | AtLookup domain => findServer domain
  | AtNew domain =>
      res <- newServer libanubis_New domain;;
      match res with
      | inl err => e <- createFailed err;; ret (Finished e)
      | inr anubisServer => ret (AtStore domain anubisServer)
      end
  | AtStore domain anubisServer =>
      storeServer domain anubisServer;;
      ret (AtDelegate domain)
  | AtDelegate domain => announce r next;; ret (AtDispatch domain)
  | AtDispatch domain => dispatch domain r
  | AtPass => passThrough r;; ret (Finished None)
  | Finished e => ret (Finished e)
  end.

Definition stepTask (t : Task) : M Task :=
  p <- stepPc (req t) (downstream t) (pc t);;
  ret (mkTask (req t) (downstream t) p).

(** [n] steps of one request with no other request in between. *)
Fixpoint steps (n : nat) (r : Request) (next : Handler) (p : Pc) : M Pc :=
  match n with
  | O => ret p
  | S n' => p' <- stepPc r next p;; steps n' r next p'
  end.

(** A schedule names, step by step, the request that moves next. *)
Fixpoint run (sched : list nat) (ts : list Task) : M (list Task) :=
  match sched with
  | [] => ret ts
  | i :: sched' =>
      match ts !! i with
      | None => run sched' ts
      | Some t =>
          t' <- stepTask t;;
          run sched' (<[i := t']> ts)
      end
  end.

End Interleaving.

(** The requests of a list, all at the entry of [ServeHTTP]. *)
Definition arrivals (rs : list (Request * Handler)) : list Task :=
  map (fun rh => mkTask (fst rh) (snd rh) AtEntry) rs.

(** The schedule in which request [0] runs to its end (eight steps at
    most), then request [1], and so on: no two requests overlap. *)
Definition oneByOne (k : nat) : list nat :=
  flat_map (fun i => [i; i; i; i; i; i; i; i]) (seq 0 k).

(** The requests of a list, each finished with its result. *)
Definition finishedTasks (rs : list (Request * Handler)) (es : list (option string))
  : list Task :=
  zip_with (fun rh e => mkTask (fst rh) (snd rh) (Finished e)) rs es.

(** *** Test doubles *)

Module Double.

(** A constructor that always succeeds, one that always fails, and one
    that fails at its first call only. *)
Definition newOk : nat -> Options -> option string := fun _ _ => None.
Definition newFails : nat -> Options -> option string :=
  fun _ _ => Some "bad options".
Definition newFailsOnce : nat -> Options -> option string :=
  fun n _ => if (n =? 0)%nat then Some "bad options" else None.

(** An engine that lets every request pass, and one that answers every
    request with its challenge page. *)
Definition passAll : nat -> ServerPtr -> Request -> Verdict :=
  fun _ _ _ => PassThrough.
Definition challengeAll : nat -> ServerPtr -> Request -> Verdict :=
  fun _ _ _ => ChallengePage.

(** Downstream handlers. *)
Definition okNext : Handler := fun _ => None.
Definition failingNext : Handler := fun _ => Some "upstream down".

Definition reqA : Request := mkRequest "a.example.com" "/a".
Definition reqB : Request := mkRequest "b.example.com:8080" "/b".
Definition reqC : Request := mkRequest "example.com" "/c".

End Double.

(** *** What one request looks like from outside

    [evs] are the events of one request.  A request that the engine lets
    pass is redirected when a target is configured and reaches the
    downstream handler otherwise; a request the engine answers itself
    does neither. *)

Definition passEffects (target : option string) (next : Handler) (r : Request)
    (evs : list Event) : Prop :=
  match target with
  | Some url =>
      redirects evs = [(r, url, StatusTemporaryRedirect)] /\
      nextCalls evs = [] /\
      errorLogs evs = []
  | None =>
      redirects evs = [] /\
      nextCalls evs = [(r, next r)] /\
      errorLogs evs = match next r with
                      | Some e => ["Anubis error when calling Next" +:+ e]
                      | None => []
                      end
  end.

Definition requestEffects (v : Verdict) (target : option string) (next : Handler)
    (r : Request) (evs : list Event) : Prop :=
  match v with
  | PassThrough => passEffects target next r evs
  | _ => redirects evs = [] /\ nextCalls evs = [] /\ errorLogs evs = []
  end.

(** The middleware after a request: [Next] is the request's downstream
    handler; the registry is [servers]. *)
Definition served (w : World) (servers : gmap string ServerPtr) (next : Handler)
    (hp : list Options) (evs : list Event) : World :=
  mkWorld (mkMiddleware (Target (mw w)) (AnubisPolicy (mw w)) (Some servers) (Some next))
          hp (evs ++ trace w).

(** *** Provisioning *)

Section Provisioning.

(** [libanubis.LoadPoliciesOrDefault] and [anubis.DefaultDifficulty]
    belong to the challenge-engine library: loading yields an error or
    the address of the parsed policy. *)
Variable LoadPoliciesOrDefault : string -> Z -> string + nat.
Variable DefaultDifficulty : Z.

(** [Provision] implements [caddy.Provisioner].  The logger it installs
    is the one [logInfo] and [logError] write to. *)
Definition Provision : M (option string) :=
  logInfo "Anubis middleware provisioning";;
  match LoadPoliciesOrDefault "" DefaultDifficulty with
  | inl err => ret (Some err)
  | inr loadedPolicy =>
      m <- getM;;
      putM (mkMiddleware (Target m) (Some loadedPolicy) (AnubisServers m) (Next m));;
      logInfo "Anubis middleware provisioned";;
      ret None
  end.

End Provisioning.

(** *** Every server serves its own domain *)

(** The server at address [p] was built with cookie domain [d]. *)
Definition builtFor (w : World) (p : ServerPtr) (d : string) : Prop :=
  exists o, heap w !! p = Some o /\ CookieDomain o = d.

(** Every registered server was built for the domain it is registered
    under, and every request dispatched so far went to a server built
    for the request's own apex domain. *)
Definition isolated (w : World) : Prop :=
  (forall d p, registry w !! d = Some p -> builtFor w p d) /\
  (forall p r, (p, r) ∈ dispatches (trace w) ->
     exists d, DomainFromRequest r = Some d /\ builtFor w p d).

(** *** More test doubles *)

Module Loader.

(** A policy loader that yields a policy, and one that fails. *)
Definition loadOk : string -> Z -> string + nat := fun _ _ => inr 7%nat.
Definition loadFails : string -> Z -> string + nat :=
  fun _ _ => inl "malformed policy".

(** A request for another tenant. *)
Definition reqD : Request := mkRequest "shop.other.org:8443" "/d".

(** A middleware that has built and registered a server for
    ["example.com"]. *)
Definition oneTenant : World :=
  mkWorld (mkMiddleware None None (Some {[ "example.com" := 0%nat ]}) None)
          [mkOptions "example.com" true true None true] [].

End Loader.

(** *** The response [http.Redirect] writes

    [http.Redirect] is Go's [net/http], not code of this repository.
    Line 113 hands it the request, [*m.Target] and the status; what the
    client receives is the status and the [Location] header it computes
    from them.  Its own logic is transcribed below; [url.Parse],
    [path.Clean] and [hexEscapeNonASCII], which it calls, are
    parameters. *)

Module NetHTTP.

(** [strings.Index(s, c)] for a one-byte [c]: the index of the first
    occurrence, or [-1]. *)
Fixpoint IndexByte (s : string) (c : ascii) : Z :=
  match s with
  | EmptyString => -1
  | String b s' =>
      if Ascii.eqb b c then 0
      else let r := IndexByte s' c in if r =? -1 then -1 else r + 1
  end.

(** [path.Split]: [i := LastIndexByte(path, '/'); path[:i+1], path[i+1:]] *)
Definition path_Split (path : string) : option (string * string) :=
  let i := LastIndexByte path "/" in
  dir ← slice_to path (i + 1);
  file ← slice_from path (i + 1);
  Some (dir, file).

Record Response := mkResponse { Status : Z; Location : string }.

Section Redirect.

(** [url.Parse]: the scheme and the host of the parsed URL, or [None]
    when it reports an error. *)
Variable url_Parse : string -> option (string * string).
Variable path_Clean : string -> string.
Variable hexEscapeNonASCII : string -> string.

(** The URL [http.Redirect] puts into the [Location] header: a URL
    with neither scheme nor host is made a path, relative to the
    directory of the request path unless it starts with a slash. *)
Definition RedirectLocation (r : Request) (url : string) : option string :=
  url ←
    (match url_Parse url with
     | Some (scheme, host) =>
         if String.eqb scheme "" && String.eqb host ""
         then
           let oldpath := URLPath r in
           let oldpath := if String.eqb oldpath "" then "/" else oldpath in
           url ←
             (match url with
              | String "/" _ => Some url
              | _ => '(olddir, _) ← path_Split oldpath; Some (olddir +:+ url)
              end);
           '(url, query) ←
             (let i := IndexByte url "?" in
              if negb (i =? -1)
              then u ← slice_to url i; q ← slice_from url i; Some (u, q)
              else Some (url, ""));
           let trailing := HasSuffix url "/" in
           let url := path_Clean url in
           let url :=
             if trailing && negb (HasSuffix url "/") then url +:+ "/" else url in
           Some (url +:+ query)
         else Some url
     | None => Some url
     end);
  Some (hexEscapeNonASCII url).

(** [http.Redirect(w, r, url, code)]: the status and the [Location]
    header of the response. *)
Definition Redirect (r : Request) (url : string) (code : Z) : option Response :=
  location ← RedirectLocation r url;
  Some (mkResponse code location).

End Redirect.

(** Stand-ins for the three library functions on the inputs used
    below: [url.Parse] finds scheme ["https"] and host ["qwant.com"] in
    ["https://qwant.com"] and neither in ["qwant.com"];
    [path.Clean] leaves ["/dir/qwant.com"], which is clean, as it is;
    [hexEscapeNonASCII] leaves ASCII strings as they are. *)
Definition parseDouble (url : string) : option (string * string) :=
  if String.eqb url "https://qwant.com" then Some ("https", "qwant.com")
  else Some ("", "").
Definition cleanDouble (path : string) : string := path.
Definition hexDouble (s : string) : string := s.

Definition reqP : Request := mkRequest "www.example.com" "/dir/page".

End NetHTTP.

(** * Facts about the string primitives *)

Section StringFacts.

#[local] Arguments String.append : simpl nomatch.

Lemma len_nonneg s : 0 <= len s.
Proof. unfold len. lia. Qed.

Lemma len_cons b s : len (String b s) = len s + 1.
Proof. unfold len. simpl String.length. lia. Qed.

Lemma len_app s t : len (s +:+ t) = len s + len t.
Proof.
  induction s as [|b s IH]; simpl.
  - unfold len. simpl. lia.
  - rewrite !len_cons, IH. lia.
Qed.

Lemma len_to_nat s : Z.to_nat (len s) = String.length s.
Proof. unfold len. lia. Qed.

Lemma app_cons_assoc h b t : h +:+ String b t = (h +:+ String b "") +:+ t.
Proof. induction h as [|a h IH]; simpl; [done | by rewrite IH]. Qed.

Lemma take_app_len h t : take (String.length h) (h +:+ t) = h.
Proof. induction h as [|b h IH]; simpl; [by destruct t | by rewrite IH]. Qed.

Lemma take_all s : take (String.length s) s = s.
Proof. induction s as [|b s IH]; simpl; [done | by rewrite IH]. Qed.

Lemma drop_app_len h t : drop (String.length h) (h +:+ t) = t.
Proof. induction h as [|b h IH]; simpl; done. Qed.

Lemma slice_ok s lo hi :
  0 <= lo <= hi -> hi <= len s ->
  slice s lo hi = Some (take (Z.to_nat (hi - lo)) (drop (Z.to_nat lo) s)).
Proof.
  intros [H0 H1] H2. unfold slice.
  destruct (Z.leb_spec 0 lo); [|lia].
  destruct (Z.leb_spec lo hi); [|lia].
  destruct (Z.leb_spec hi (len s)); [|lia].
  reflexivity.
Qed.

Lemma slice_to_app h t : slice_to (h +:+ t) (len h) = Some h.
Proof.
  unfold slice_to. rewrite slice_ok.
  - rewrite Z.sub_0_r, len_to_nat. simpl. by rewrite take_app_len.
  - pose proof (len_nonneg h). lia.
  - rewrite len_app. pose proof (len_nonneg t). lia.
Qed.

Lemma slice_from_app h t : slice_from (h +:+ t) (len h) = Some t.
Proof.
  unfold slice_from. rewrite slice_ok.
  - rewrite len_to_nat, drop_app_len, len_app.
    replace (len h + len t - len h) with (len t) by lia.
    by rewrite len_to_nat, take_all.
  - rewrite len_app. pose proof (len_nonneg h). pose proof (len_nonneg t). lia.
  - lia.
Qed.

Lemma slice_from_app_cons h b t :
  slice_from (h +:+ String b t) (len h + 1) = Some t.
Proof.
  rewrite app_cons_assoc.
  replace (len h + 1) with (len (h +:+ String b "")).
  - apply slice_from_app.
  - rewrite len_app, len_cons. unfold len. simpl. lia.
Qed.

Lemma LastIndexByte_bounds s c : -1 <= LastIndexByte s c < len s.
Proof.
  induction s as [|b s IH]; simpl.
  - unfold len. simpl. lia.
  - rewrite len_cons.
    destruct (Z.eqb_spec (LastIndexByte s c) (-1)).
    + destruct (Ascii.eqb b c); pose proof (len_nonneg s); lia.
    + lia.
Qed.

Lemma LastIndexByte_absent s c :
  LastIndexByte s c = -1 <-> hasByte c s = false.
Proof.
  induction s as [|b s IH]; simpl; [done|].
  pose proof (LastIndexByte_bounds s c) as Hb.
  destruct (Z.eqb_spec (LastIndexByte s c) (-1)) as [E|E].
  - destruct (Ascii.eqb b c); simpl.
    + split; [lia | done].
    + split; intros _; [by apply IH | done].
  - split; [lia|]. intros H. apply orb_false_iff in H as [_ H].
    apply IH in H. lia.
Qed.

Lemma LastIndexByte_app h t c :
  LastIndexByte (h +:+ t) c =
    if LastIndexByte t c =? -1 then LastIndexByte h c
    else len h + LastIndexByte t c.
Proof.
  induction h as [|b h IH]; simpl.
  - destruct (Z.eqb_spec (LastIndexByte t c) (-1)) as [E|E].
    + done.
    + unfold len. simpl. lia.
  - rewrite IH, len_cons.
    pose proof (LastIndexByte_bounds h c).
    pose proof (LastIndexByte_bounds t c).
    pose proof (len_nonneg h).
    destruct (Z.eqb_spec (LastIndexByte t c) (-1)) as [E|E]; [done|].
    destruct (Z.eqb_spec (len h + LastIndexByte t c) (-1)); lia.
Qed.

(** The last occurrence of [c] cuts the string in two. *)
Lemma LastIndexByte_split s c :
  LastIndexByte s c <> -1 ->
  exists h t, s = h +:+ String c t /\ hasByte c t = false /\
              LastIndexByte s c = len h.
Proof.
  induction s as [|b s IH]; simpl; [done|].
  destruct (Z.eqb_spec (LastIndexByte s c) (-1)) as [E|E].
  - destruct (Ascii.eqb_spec b c) as [->|]; [|done]. intros _.
    exists "", s. split; [done|]. split; [by apply LastIndexByte_absent | done].
  - intros _. destruct (IH E) as (h & t & -> & Ht & Hl).
    exists (String b h), t. split; [done|]. split; [done|].
    rewrite len_cons. lia.
Qed.

Lemma LastIndexByte_last h t c :
  hasByte c t = false -> LastIndexByte (h +:+ String c t) c = len h.
Proof.
  intros Ht. rewrite LastIndexByte_app. simpl.
  apply LastIndexByte_absent in Ht. rewrite Ht. simpl.
  rewrite Ascii.eqb_refl. simpl. lia.
Qed.

End StringFacts.

(** * Facts about the resolver *)

Section ResolverFacts.

#[local] Arguments String.append : simpl nomatch.

Lemma append_assoc' (a b c : string) : (a +:+ b) +:+ c = a +:+ (b +:+ c).
Proof. induction a as [|x a IH]; simpl; [done | by rewrite IH]. Qed.

Lemma digits_no_colon ds : all_digits ds = true -> hasByte ":" ds = false.
Proof.
  induction ds as [|b ds IH]; simpl; [done|].
  destruct (byte_lt b "0" || byte_lt "9" b) eqn:E; [done|].
  intros H. rewrite (IH H), orb_false_r.
  destruct (Ascii.eqb_spec b ":") as [->|]; [|done].
  vm_compute in E. done.
Qed.

Lemma len_ne_minus1 s : (len s =? -1) = false.
Proof. pose proof (len_nonneg s). apply Z.eqb_neq. lia. Qed.

Lemma stripPort_port h ds :
  all_digits ds = true -> stripPort (h +:+ String ":" ds) = Some (h, ds).
Proof.
  intros Hd. unfold stripPort.
  rewrite (LastIndexByte_last _ _ _ (digits_no_colon _ Hd)).
  rewrite len_ne_minus1, slice_from_app. simpl.
  rewrite Hd, slice_to_app, slice_from_app_cons. reflexivity.
Qed.

Lemma stripPort_no_colon h : hasByte ":" h = false -> stripPort h = Some (h, "").
Proof.
  intros H. apply LastIndexByte_absent in H. unfold stripPort.
  rewrite H. reflexivity.
Qed.

Lemma stripPort_keeps a seg :
  hasByte ":" seg = false -> all_digits seg = false ->
  stripPort (a +:+ String ":" seg) = Some (a +:+ String ":" seg, "").
Proof.
  intros Hc Hd. unfold stripPort.
  rewrite (LastIndexByte_last _ _ _ Hc).
  rewrite len_ne_minus1, slice_from_app. simpl.
  rewrite Hd. reflexivity.
Qed.

(** [stripPort] either leaves its argument alone or cuts a [:digits]
    suffix off. *)
Lemma stripPort_cases h :
  stripPort h = Some (h, "") \/
  exists a ds, h = a +:+ String ":" ds /\ all_digits ds = true /\
               stripPort h = Some (a, ds).
Proof.
  destruct (Z.eq_dec (LastIndexByte h ":") (-1)) as [E|E].
  - left. apply stripPort_no_colon. by apply LastIndexByte_absent.
  - destruct (LastIndexByte_split _ _ E) as (a & t & -> & Ht & _).
    destruct (all_digits t) eqn:Hd.
    + right. exists a, t. split; [done|]. split; [done|].
      by apply stripPort_port.
    + left. by apply stripPort_keeps.
Qed.

Lemma HasPrefix_cons b h :
  HasPrefix (String b h) "[" = if ascii_dec "[" b then true else false.
Proof.
  unfold HasPrefix.
  change (String.prefix "[" (String b h))
    with (match ascii_dec "[" b with
          | left _ => String.prefix "" h
          | right _ => false
          end).
  destruct (ascii_dec "[" b); [by destruct h | done].
Qed.

Lemma HasPrefix_bracket h :
  HasPrefix h "[" = true -> exists h', h = String "[" h'.
Proof.
  destruct h as [|b h]; [discriminate|].
  rewrite HasPrefix_cons. destruct (ascii_dec "[" b) as [<-|]; [eauto | done].
Qed.

Lemma drop_snoc a (c : ascii) :
  drop (String.length a) (a +:+ String c "") = String c "".
Proof. apply drop_app_len. Qed.

Lemma HasSuffix_split h c :
  HasSuffix h (String c "") = true -> exists a, h = a +:+ String c "".
Proof.
  induction h as [|b h IH]; unfold HasSuffix.
  - vm_compute. done.
  - rewrite !len_cons. intros H. apply andb_true_iff in H as [_ H].
    replace (len h + 1 - (len "" + 1)) with (len h) in H
      by (unfold len; simpl; lia).
    rewrite len_to_nat in H.
    destruct h as [|b' h].
    + cbn [drop String.length] in H. apply String.eqb_eq in H.
      injection H as ->. by exists "".
    + destruct IH as [a ->].
      * unfold HasSuffix. rewrite !len_cons.
        replace (len h + 1 - (len "" + 1)) with (len h)
          by (unfold len; simpl; lia).
        rewrite len_to_nat. apply andb_true_iff. split; [|done].
        apply Z.leb_le. pose proof (len_nonneg h). unfold len at 1. simpl. lia.
      * by exists (String b a).
Qed.

Lemma HasSuffix_snoc a c : HasSuffix (a +:+ String c "") (String c "") = true.
Proof.
  unfold HasSuffix. rewrite len_app, !len_cons.
  replace (len a + (len "" + 1) - (len "" + 1)) with (len a) by lia.
  rewrite len_to_nat, drop_snoc, String.eqb_refl, andb_true_r.
  apply Z.leb_le. pose proof (len_nonneg a). lia.
Qed.

Lemma slice_inner a :
  slice (String "[" (a +:+ "]")) 1 (len (String "[" (a +:+ "]")) - 1) = Some a.
Proof.
  rewrite slice_ok.
  - rewrite len_cons, len_app. simpl.
    replace (len a + len "]" + 1 - 1 - 1) with (len a) by (unfold len; simpl; lia).
    by rewrite len_to_nat, take_app_len.
  - rewrite len_cons, len_app. pose proof (len_nonneg a).
    unfold len at 2. simpl. lia.
  - lia.
Qed.

Lemma stripBrackets_wrapped a : stripBrackets (String "[" (a +:+ "]")) = Some a.
Proof.
  unfold stripBrackets. rewrite HasPrefix_cons.
  change (String "[" (a +:+ "]")) with (String "[" a +:+ "]") at 1.
  rewrite HasSuffix_snoc.
  destruct (ascii_dec "[" "[") as [_|]; [|done].
  apply slice_inner.
Qed.

Lemma stripBrackets_plain h : HasPrefix h "[" = false -> stripBrackets h = Some h.
Proof. intros H. unfold stripBrackets. by rewrite H. Qed.

(** A host that starts with [[] and ends with []] has both; the two
    bytes are distinct, so the slice of line 67 is in range. *)
Lemma stripBrackets_cases h :
  stripBrackets h = Some h \/
  exists a, h = String "[" (a +:+ "]") /\ stripBrackets h = Some a.
Proof.
  destruct (HasPrefix h "[") eqn:Hp.
  - destruct (HasSuffix h "]") eqn:Hs.
    + right. apply HasPrefix_bracket in Hp as [h' ->].
      apply HasSuffix_split in Hs as [a Ha].
      destruct a as [|b a]; simpl in Ha.
      * discriminate.
      * injection Ha as <- ->. exists a. split; [done|].
        apply stripBrackets_wrapped.
    + left. unfold stripBrackets. by rewrite Hp, Hs.
  - left. by apply stripBrackets_plain.
Qed.

End ResolverFacts.

Section SplitFacts.

#[local] Arguments String.append : simpl nomatch.

Lemma splitHostPort_total h : exists host port, splitHostPort h = Some (host, port).
Proof.
  unfold splitHostPort.
  destruct (stripPort_cases h) as [->|(a & ds & _ & _ & ->)]; simpl.
  - destruct (stripBrackets_cases h) as [->|(x & _ & ->)]; simpl; eauto.
  - destruct (stripBrackets_cases a) as [->|(x & _ & ->)]; simpl; eauto.
Qed.

Lemma splitHostPort_port h ds host :
  all_digits ds = true -> stripBrackets h = Some host ->
  splitHostPort (h +:+ String ":" ds) = Some (host, ds).
Proof.
  intros Hd Hb. unfold splitHostPort.
  rewrite (stripPort_port _ _ Hd). simpl. rewrite Hb. reflexivity.
Qed.

Lemma splitHostPort_no_port h host :
  stripPort h = Some (h, "") -> stripBrackets h = Some host ->
  splitHostPort h = Some (host, "").
Proof.
  intros Hp Hb. unfold splitHostPort. rewrite Hp. simpl. rewrite Hb. reflexivity.
Qed.

Lemma splitSub_no_dot h :
  hasByte "." h = false -> splitSubDomainDomain h = Some ("", h).
Proof.
  intros H. apply LastIndexByte_absent in H. unfold splitSubDomainDomain.
  rewrite H. reflexivity.
Qed.

Lemma splitSub_one_dot a b :
  hasByte "." a = false -> hasByte "." b = false ->
  splitSubDomainDomain (a +:+ String "." b) = Some ("", a +:+ String "." b).
Proof.
  intros Ha Hb. unfold splitSubDomainDomain.
  rewrite (LastIndexByte_last _ _ _ Hb), len_ne_minus1, slice_to_app. simpl.
  apply LastIndexByte_absent in Ha. rewrite Ha. reflexivity.
Qed.

Lemma splitSub_two_labels s l1 l2 :
  hasByte "." l1 = false -> hasByte "." l2 = false ->
  splitSubDomainDomain (s +:+ String "." (l1 +:+ String "." l2))
  = Some (s, l1 +:+ String "." l2).
Proof.
  intros H1 H2. unfold splitSubDomainDomain.
  assert (s +:+ String "." (l1 +:+ String "." l2)
          = (s +:+ String "." l1) +:+ String "." l2) as E
    by (by rewrite append_assoc').
  rewrite E.
  rewrite (LastIndexByte_last _ _ _ H2), len_ne_minus1, slice_to_app. simpl.
  rewrite (LastIndexByte_last _ _ _ H1), len_ne_minus1. simpl.
  rewrite <- E.
  rewrite slice_to_app, slice_from_app_cons. reflexivity.
Qed.

(** Every host has one of three shapes: no dot, one dot, or a last
    but one dot in front of two dot-free labels. *)
Lemma dot_shapes h :
  hasByte "." h = false \/
  (exists a b, h = a +:+ String "." b /\
               hasByte "." a = false /\ hasByte "." b = false) \/
  (exists s l1 l2, h = s +:+ String "." (l1 +:+ String "." l2) /\
                   hasByte "." l1 = false /\ hasByte "." l2 = false).
Proof.
  destruct (hasByte "." h) eqn:E; [right | by left].
  assert (LastIndexByte h "." <> -1) as Hn.
  { intros H. apply LastIndexByte_absent in H. congruence. }
  destruct (LastIndexByte_split _ _ Hn) as (a & b & -> & Hb & _).
  destruct (hasByte "." a) eqn:Ea.
  - right.
    assert (LastIndexByte a "." <> -1) as Hn'.
    { intros H. apply LastIndexByte_absent in H. congruence. }
    destruct (LastIndexByte_split _ _ Hn') as (s & l1 & -> & Hl1 & _).
    exists s, l1, b. rewrite append_assoc'. done.
  - left. exists a, b. done.
Qed.

Lemma splitSub_total h : exists s d, splitSubDomainDomain h = Some (s, d).
Proof.
  destruct (dot_shapes h) as [H|[(a & b & -> & Ha & Hb)|(s & l1 & l2 & -> & H1 & H2)]].
  - rewrite (splitSub_no_dot _ H). eauto.
  - rewrite (splitSub_one_dot _ _ Ha Hb). eauto.
  - rewrite (splitSub_two_labels _ _ _ H1 H2). eauto.
Qed.

Lemma DomainFromRequest_total r : exists d, DomainFromRequest r = Some d.
Proof.
  unfold DomainFromRequest.
  destruct (splitHostPort_total (Host r)) as (h & p & ->). simpl.
  destruct (splitSub_total h) as (s & d & ->). simpl. eauto.
Qed.

Lemma DomainFromRequest_split r host port :
  splitHostPort (Host r) = Some (host, port) ->
  DomainFromRequest r = snd <$> splitSubDomainDomain host.
Proof.
  intros H. unfold DomainFromRequest. rewrite H. simpl.
  destruct (splitSubDomainDomain host) as [[s d]|]; reflexivity.
Qed.

End SplitFacts.

(** * The resolver: [DomainFromRequest] *)

Section ResolverClaims.

#[local] Arguments String.append : simpl nomatch.

Example split_port_numeric :
  splitHostPort "example.com:8080" = Some ("example.com", "8080").
Proof. reflexivity. Qed.

Example split_sub_public_suffix :
  splitSubDomainDomain "foo.co.uk" = Some ("foo", "co.uk").
Proof. reflexivity. Qed.

(** C5: resolution keeps the last two dot-separated labels of the
    stripped host: whenever the host is [s.l1.l2] with [l1] and [l2]
    free of dots, the apex domain is [l1.l2].  In particular
    ["a.b.example.com"], ["x.example.com"] and ["example.com"] all
    resolve to ["example.com"], ["localhost"] resolves to
    ["localhost"], and so ["a.b.example.com"] and ["example.com"]
    resolve to the same apex domain. *)
Theorem apex_keeps_last_two_labels (r : Request) (s l1 l2 port path : string) :
  splitHostPort (Host r) = Some (s +:+ String "." (l1 +:+ String "." l2), port) ->
  hasByte "." l1 = false ->
  hasByte "." l2 = false ->
  DomainFromRequest r = Some (l1 +:+ String "." l2) /\
  DomainFromRequest (mkRequest "a.b.example.com" path) = Some "example.com" /\
  DomainFromRequest (mkRequest "x.example.com" path) = Some "example.com" /\
  DomainFromRequest (mkRequest "example.com" path) = Some "example.com" /\
  DomainFromRequest (mkRequest "localhost" path) = Some "localhost" /\
  DomainFromRequest (mkRequest "a.b.example.com" path)
  = DomainFromRequest (mkRequest "example.com" path).
Proof.
  intros Hs H1 H2. split.
  - rewrite (DomainFromRequest_split _ _ _ Hs).
    by rewrite (splitSub_two_labels _ _ _ H1 H2).
  - repeat split; reflexivity.
Qed.

Lemma apex_keeps_last_two_labels_witness :
  splitHostPort "a.b.example.com:443" = Some ("a.b" +:+ String "." ("example" +:+ String "." "com"), "443") /\
  DomainFromRequest (mkRequest "a.b.example.com:443" "/") = Some "example.com".
Proof.
  split; [reflexivity|].
  apply (apex_keeps_last_two_labels (mkRequest "a.b.example.com:443" "/")
           "a.b" "example" "com" "443" "/"); reflexivity.
Defined.

(** C6, as stated, fails: a host that itself ends in a port keeps it
    when a second port is appended, since only one suffix is cut. *)
Lemma port_suffix_counterexample :
  all_digits "81" = true /\
  DomainFromRequest (mkRequest ("example.com:80" +:+ String ":" "81") "/")
  = Some "example.com:80" /\
  DomainFromRequest (mkRequest "example.com:80" "/") = Some "example.com" /\
  ~ (forall h ds path, all_digits ds = true ->
       DomainFromRequest (mkRequest (h +:+ String ":" ds) path)
       = DomainFromRequest (mkRequest h path)).
Proof.
  split; [reflexivity|]. split; [reflexivity|]. split; [reflexivity|].
  intros H. specialize (H "example.com:80" "81" "/" eq_refl).
  vm_compute in H. discriminate H.
Qed.

(** C6, amended: for a host [h] that does not itself end in a colon
    followed by digits only, appending a [:digits] suffix does not
    change the apex domain; and a last colon segment with a byte that
    is not a digit is not cut off: the port is empty and the host is
    the whole string, brackets apart. *)
Theorem port_suffix_ignored (h ds path : string) :
  all_digits ds = true ->
  (forall a ds', all_digits ds' = true -> h <> a +:+ String ":" ds') ->
  DomainFromRequest (mkRequest (h +:+ String ":" ds) path)
  = DomainFromRequest (mkRequest h path) /\
  (forall a seg, hasByte ":" seg = false -> all_digits seg = false ->
     stripPort (a +:+ String ":" seg) = Some (a +:+ String ":" seg, "") /\
     splitHostPort (a +:+ String ":" seg)
     = (fun host => (host, "")) <$> stripBrackets (a +:+ String ":" seg)).
Proof.
  intros Hd Hh. split.
  - assert (stripPort h = Some (h, "")) as Hp.
    { destruct (stripPort_cases h) as [E|(a & ds' & E & Hd' & _)]; [done|].
      by destruct (Hh a ds' Hd'). }
    destruct (stripBrackets_cases h) as [Hb|(x & _ & Hb)].
    + rewrite (DomainFromRequest_split (mkRequest (h +:+ String ":" ds) path) h ds)
        by (by apply splitHostPort_port).
      rewrite (DomainFromRequest_split (mkRequest h path) h "")
        by (by apply splitHostPort_no_port).
      reflexivity.
    + rewrite (DomainFromRequest_split (mkRequest (h +:+ String ":" ds) path) x ds)
        by (by apply splitHostPort_port).
      rewrite (DomainFromRequest_split (mkRequest h path) x "")
        by (by apply splitHostPort_no_port).
      reflexivity.
  - intros a seg Hc Hn. pose proof (stripPort_keeps a seg Hc Hn) as Hp.
    split; [done|]. unfold splitHostPort. rewrite Hp. simpl.
    destruct (stripBrackets (a +:+ String ":" seg)); reflexivity.
Qed.

Lemma port_suffix_ignored_witness :
  DomainFromRequest (mkRequest ("www.example.com" +:+ String ":" "8080") "/")
  = DomainFromRequest (mkRequest "www.example.com" "/").
Proof.
  apply (port_suffix_ignored "www.example.com" "8080" "/").
  - reflexivity.
  - intros a ds' Hd' E.
    assert (hasByte ":" "www.example.com" = true) as Hc.
    { rewrite E. clear E. induction a as [|b a IH]; simpl.
      - reflexivity.
      - rewrite IH. apply orb_true_r. }
    vm_compute in Hc. discriminate Hc.
Defined.

End ResolverClaims.

Section ResolverClaimsMore.

#[local] Arguments String.append : simpl nomatch.

(** C7: for a bracketed host [[a]] followed by a colon and digits,
    [splitHostPort] first cuts the port off and then removes the
    brackets, so [splitSubDomainDomain] receives the bare [a]; for
    ["[::1]:80"] that is ["::1"]. *)
Theorem bracketed_host_with_port (a ds path : string) :
  all_digits ds = true ->
  stripPort (String "[" (a +:+ "]") +:+ String ":" ds)
  = Some (String "[" (a +:+ "]"), ds) /\
  stripBrackets (String "[" (a +:+ "]")) = Some a /\
  splitHostPort (String "[" (a +:+ "]") +:+ String ":" ds) = Some (a, ds) /\
  DomainFromRequest (mkRequest (String "[" (a +:+ "]") +:+ String ":" ds) path)
  = snd <$> splitSubDomainDomain a /\
  splitHostPort "[::1]:80" = Some ("::1", "80").
Proof.
  intros Hd.
  pose proof (stripBrackets_wrapped a) as Hb.
  pose proof (splitHostPort_port _ _ _ Hd Hb) as Hs.
  split; [by apply stripPort_port|]. split; [done|]. split; [done|].
  split; [|reflexivity].
  by apply (DomainFromRequest_split (mkRequest _ path) a ds).
Qed.

Lemma bracketed_host_with_port_witness :
  all_digits "80" = true /\
  splitHostPort (String "[" ("::1" +:+ "]") +:+ String ":" "80") = Some ("::1", "80").
Proof.
  split; [reflexivity|].
  apply (bracketed_host_with_port "::1" "80" "/"). reflexivity.
Defined.

(** C8: resolution never panics: every request, whatever its host
    string, the empty one included, has an apex domain; the result
    depends on the host string only; and a stripped host with no dot,
    or with a single dot, is returned as it is. *)
Theorem resolution_is_total (r : Request) :
  (exists d, DomainFromRequest r = Some d) /\
  DomainFromRequest (mkRequest "" (URLPath r)) = Some "" /\
  (forall r', Host r' = Host r -> DomainFromRequest r' = DomainFromRequest r) /\
  (forall host port,
      splitHostPort (Host r) = Some (host, port) ->
      hasByte "." host = false ->
      DomainFromRequest r = Some host) /\
  (forall a b port,
      splitHostPort (Host r) = Some (a +:+ String "." b, port) ->
      hasByte "." a = false -> hasByte "." b = false ->
      DomainFromRequest r = Some (a +:+ String "." b)).
Proof.
  split; [apply DomainFromRequest_total|]. split; [reflexivity|].
  split; [|split].
  - intros r' E. unfold DomainFromRequest. by rewrite E.
  - intros host port Hs Hd. rewrite (DomainFromRequest_split _ _ _ Hs).
    by rewrite (splitSub_no_dot _ Hd).
  - intros a b port Hs Ha Hb. rewrite (DomainFromRequest_split _ _ _ Hs).
    by rewrite (splitSub_one_dot _ _ Ha Hb).
Qed.

(** C10: a host that does not start with a bracket and ends in a
    colon followed by digits loses that segment as a port, also when
    the colon belongs to an IPv6 address: the host ["::1"] resolves to
    the apex domain [":"]. *)
Theorem unbracketed_ipv6_tail_is_port (h ds path : string) :
  HasPrefix h "[" = false ->
  all_digits ds = true ->
  splitHostPort (h +:+ String ":" ds) = Some (h, ds) /\
  splitHostPort "::1" = Some (":", "1") /\
  DomainFromRequest (mkRequest "::1" path) = Some ":".
Proof.
  intros Hp Hd. split; [|split; reflexivity].
  apply splitHostPort_port; [done|]. by apply stripBrackets_plain.
Qed.

Lemma unbracketed_ipv6_tail_is_port_witness :
  HasPrefix "fe80::1" "[" = false /\ all_digits "443" = true /\
  splitHostPort ("fe80::1" +:+ String ":" "443") = Some ("fe80::1", "443").
Proof.
  split; [reflexivity|]. split; [reflexivity|].
  apply (unbracketed_ipv6_tail_is_port "fe80::1" "443" "/"); reflexivity.
Defined.

End ResolverClaimsMore.

(** * Facts about the dispatcher *)

Section TraceFacts.

Lemma constructions_app t1 t2 :
  constructions (t1 ++ t2) = constructions t1 ++ constructions t2.
Proof.
  induction t1 as [|e t1 IH]; [done|].
  destruct e; simpl; by rewrite ?IH.
Qed.

Lemma dispatches_app t1 t2 :
  dispatches (t1 ++ t2) = dispatches t1 ++ dispatches t2.
Proof.
  induction t1 as [|e t1 IH]; [done|].
  destruct e; simpl; by rewrite ?IH.
Qed.

Lemma redirects_app t1 t2 : redirects (t1 ++ t2) = redirects t1 ++ redirects t2.
Proof.
  induction t1 as [|e t1 IH]; [done|].
  destruct e; simpl; by rewrite ?IH.
Qed.

Lemma nextCalls_app t1 t2 : nextCalls (t1 ++ t2) = nextCalls t1 ++ nextCalls t2.
Proof.
  induction t1 as [|e t1 IH]; [done|].
  destruct e; simpl; by rewrite ?IH.
Qed.

Lemma errorLogs_app t1 t2 : errorLogs (t1 ++ t2) = errorLogs t1 ++ errorLogs t2.
Proof.
  induction t1 as [|e t1 IH]; [done|].
  destruct e; simpl; by rewrite ?IH.
Qed.

(** Events that are neither a redirect, nor a call of the downstream
    handler, nor an error log leave the effects of a request as they
    are. *)
Lemma requestEffects_quiet v target next r evs q :
  redirects q = [] -> nextCalls q = [] -> errorLogs q = [] ->
  requestEffects v target next r evs ->
  requestEffects v target next r (evs ++ q).
Proof.
  intros Hr Hn He. unfold requestEffects, passEffects.
  rewrite redirects_app, nextCalls_app, errorLogs_app, Hr, Hn, He, !app_nil_r.
  done.
Qed.

Lemma registry_made w d p :
  registry w !! d = Some p -> AnubisServers (mw w) = Some (registry w).
Proof.
  unfold registry. destruct (AnubisServers (mw w)); [done|].
  cbn -[lookup]. by rewrite lookup_empty.
Qed.

Lemma bind_Some {A B} (m : M A) (k : A -> M B) w a w' :
  m w = Some (a, w') -> bind m k w = k a w'.
Proof. intros H. unfold bind. by rewrite H. Qed.

Lemma bind_None {A B} (m : M A) (k : A -> M B) w :
  m w = None -> bind m k w = None.
Proof. intros H. unfold bind. by rewrite H. Qed.

End TraceFacts.

Section DispatcherFacts.

Variable libanubis_New : nat -> Options -> option string.
Variable engine : nat -> ServerPtr -> Request -> Verdict.

Lemma lookupServer_found r d p w :
  DomainFromRequest r = Some d ->
  registry w !! d = Some p ->
  lookupServer r w
  = Some ((d, Some p),
          mkWorld (mw w) (heap w)
            (LogInfo ("Anubis server already created for: " +:+ d) :: trace w)).
Proof.
  intros Hd Hr. destruct w as [[T P S N] h tr]. unfold registry in Hr.
  unfold lookupServer. rewrite Hd.
  destruct S as [S|]; cbn -[lookup] in *.
  - rewrite Hr. reflexivity.
  - by rewrite lookup_empty in Hr.
Qed.

Lemma lookupServer_missing r d w :
  DomainFromRequest r = Some d ->
  registry w !! d = None ->
  lookupServer r w
  = Some ((d, None),
          mkWorld (mkMiddleware (Target (mw w)) (AnubisPolicy (mw w))
                     (Some (registry w)) (Next (mw w)))
            (heap w) (trace w)).
Proof.
  intros Hd Hr. destruct w as [[T P S N] h tr]. unfold registry in *.
  unfold lookupServer. rewrite Hd.
  destruct S as [S|]; cbn -[lookup] in *.
  - rewrite Hr. reflexivity.
  - rewrite lookup_empty. reflexivity.
Qed.

Lemma newServer_fails d w e :
  libanubis_New (length (constructions (trace w))) (serverOptions d (mw w)) = Some e ->
  newServer libanubis_New d w
  = Some (inl e,
          mkWorld (mw w) (heap w)
            (NewCalled (serverOptions d (mw w)) (inl e)
             :: LogInfo ("Creating new anubis server for domain: " +:+ d)
             :: trace w)).
Proof.
  intros Hn. destruct w as [m h tr]. unfold newServer. cbn in *.
  rewrite Hn. reflexivity.
Qed.

Lemma newServer_succeeds d w :
  libanubis_New (length (constructions (trace w))) (serverOptions d (mw w)) = None ->
  newServer libanubis_New d w
  = Some (inr (length (heap w)),
          mkWorld (mw w) (heap w ++ [serverOptions d (mw w)])
            (NewCalled (serverOptions d (mw w)) (inr (length (heap w)))
             :: LogInfo ("Creating new anubis server for domain: " +:+ d)
             :: trace w)).
Proof.
  intros Hn. destruct w as [m h tr]. unfold newServer. cbn in *.
  rewrite Hn. reflexivity.
Qed.

Lemma storeServer_made d p w servers :
  AnubisServers (mw w) = Some servers ->
  storeServer d p w
  = Some (tt,
          mkWorld (mkMiddleware (Target (mw w)) (AnubisPolicy (mw w))
                     (Some (<[d := p]> servers)) (Next (mw w)))
            (heap w) (trace w)).
Proof.
  intros Hs. destruct w as [[T P S N] h tr]. cbn in Hs. subst S. reflexivity.
Qed.

(** Lines 165-170 when the registry holds a server for the domain. *)
Lemma delegate_registered d r next w servers p :
  AnubisServers (mw w) = Some servers ->
  servers !! d = Some p ->
  exists evs,
    delegate engine d r next w = Some (None, served w servers next (heap w) evs) /\
    constructions evs = [] /\
    dispatches evs = [(p, r)] /\
    requestEffects (engine (length (dispatches (trace w))) p r)
      (Target (mw w)) next r evs.
Proof.
  intros Hs Hp. destruct w as [[T P S N] h tr]. cbn in Hs. subst S.
  unfold delegate, Server_ServeHTTP, passThrough, served, bind, getM, putM,
    getTrace, emit, logInfo, logError, ret.
  cbn -[lookup]. rewrite Hp. cbn -[lookup].
  destruct (engine (length (dispatches tr)) p r) eqn:Hv; cbn -[lookup].
  - eexists [_; _; _; _; _]. split; [reflexivity|]. by cbn.
  - eexists [_; _; _; _; _]. split; [reflexivity|]. by cbn.
  - destruct T as [url|]; cbn -[lookup].
    + eexists [_; _; _; _; _; _; _]. split; [reflexivity|]. by cbn.
    + destruct (next r) as [e|] eqn:He; cbn -[lookup].
      * eexists [_; _; _; _; _; _; _]. split; [reflexivity|]. by cbn.
      * eexists [_; _; _; _; _; _]. split; [reflexivity|]. by cbn.
Qed.

Lemma ServeHTTP_registered r next d p w :
  DomainFromRequest r = Some d ->
  registry w !! d = Some p ->
  exists evs,
    ServeHTTP libanubis_New engine r next w
    = Some (None, served w (registry w) next (heap w) evs) /\
    constructions evs = [] /\
    dispatches evs = [(p, r)] /\
    requestEffects (engine (length (dispatches (trace w))) p r)
      (Target (mw w)) next r evs.
Proof.
  intros Hd Hr.
  pose proof (registry_made _ _ _ Hr) as Hs.
  unfold ServeHTTP, CreateAnubisServer, bind, liftOpt, ret.
  rewrite Hd, (lookupServer_found _ _ _ _ Hd Hr). cbv beta iota.
  edestruct (delegate_registered d r next
               (mkWorld (mw w) (heap w)
                  (LogInfo ("Anubis server already created for: " +:+ d) :: trace w)))
    as (evs & -> & Hc & Hp & He); [exact Hs | exact Hr |].
  exists (evs ++ [LogInfo ("Anubis server already created for: " +:+ d)]).
  split; [|split; [|split]].
  - unfold served. cbn [mw heap trace]. by rewrite <- app_assoc.
  - by rewrite constructions_app, Hc.
  - by rewrite dispatches_app, Hp.
  - by apply requestEffects_quiet.
Qed.

Lemma ServeHTTP_create_fails r next d w e :
  DomainFromRequest r = Some d ->
  registry w !! d = None ->
  libanubis_New (length (constructions (trace w))) (serverOptions d (mw w)) = Some e ->
  ServeHTTP libanubis_New engine r next w
  = Some (Some e,
          mkWorld (mkMiddleware (Target (mw w)) (AnubisPolicy (mw w))
                     (Some (registry w)) (Next (mw w)))
            (heap w)
            (LogError ("Anubis middleware create server error" +:+ e)
             :: NewCalled (serverOptions d (mw w)) (inl e)
             :: LogInfo ("Creating new anubis server for domain: " +:+ d)
             :: trace w)).
Proof.
  intros Hd Hr Hn.
  unfold ServeHTTP, CreateAnubisServer, bind, liftOpt, ret.
  rewrite Hd, (lookupServer_missing _ _ _ Hd Hr). cbv beta iota.
  rewrite (newServer_fails _ _ e) by exact Hn.
  reflexivity.
Qed.

Lemma ServeHTTP_fresh r next d w :
  DomainFromRequest r = Some d ->
  registry w !! d = None ->
  libanubis_New (length (constructions (trace w))) (serverOptions d (mw w)) = None ->
  exists evs,
    ServeHTTP libanubis_New engine r next w
    = Some (None,
            served w (<[d := length (heap w)]> (registry w)) next
              (heap w ++ [serverOptions d (mw w)]) evs) /\
    constructions evs = [(serverOptions d (mw w), inr (length (heap w)))] /\
    dispatches evs = [(length (heap w), r)] /\
    requestEffects (engine (length (dispatches (trace w))) (length (heap w)) r)
      (Target (mw w)) next r evs.
Proof.
  intros Hd Hr Hn.
  unfold ServeHTTP, CreateAnubisServer, bind, liftOpt, ret.
  rewrite Hd, (lookupServer_missing _ _ _ Hd Hr). cbv beta iota.
  rewrite newServer_succeeds by exact Hn. cbv beta iota.
  erewrite storeServer_made by reflexivity. cbv beta iota.
  cbn [mw heap trace Target AnubisPolicy AnubisServers Next].
  edestruct (delegate_registered d r next) as (evs & -> & Hc & Hp & He);
    [reflexivity | apply lookup_insert_eq |].
  cbn [mw heap trace Target dispatches] in He.
  eexists (evs ++ [_; _]).
  split; [|split; [|split]].
  - unfold served. cbn [mw heap trace Target AnubisPolicy].
    rewrite <- app_assoc. reflexivity.
  - rewrite constructions_app, Hc. reflexivity.
  - rewrite dispatches_app, Hp. reflexivity.
  - by apply requestEffects_quiet.
Qed.

(** A request for which creation does not fail is handed to the
    server registered for its domain. *)
Lemma ServeHTTP_served r next d w :
  DomainFromRequest r = Some d ->
  is_Some (registry w !! d) \/
  libanubis_New (length (constructions (trace w))) (serverOptions d (mw w)) = None ->
  exists p evs servers hp,
    ServeHTTP libanubis_New engine r next w
    = Some (None, served w servers next hp evs) /\
    servers !! d = Some p /\
    dispatches evs = [(p, r)] /\
    requestEffects (engine (length (dispatches (trace w))) p r)
      (Target (mw w)) next r evs.
Proof.
  intros Hd Hc. destruct (registry w !! d) as [p|] eqn:Hr.
  - destruct (ServeHTTP_registered r next d p w Hd Hr) as (evs & E & _ & Hp & He).
    exists p, evs, (registry w), (heap w). done.
  - destruct Hc as [[p Hp]|Hn]; [done|].
    destruct (ServeHTTP_fresh r next d w Hd Hr Hn) as (evs & E & _ & Hp & He).
    exists (length (heap w)), evs. do 2 eexists.
    split; [exact E|]. split; [apply lookup_insert_eq | done].
Qed.

(** Requests for a domain that has a server all go to that server,
    and none of them calls [libanubis.New]. *)
Lemma serveAll_registered rs d p : forall w,
  Forall (fun rh => DomainFromRequest (fst rh) = Some d) rs ->
  registry w !! d = Some p ->
  exists w',
    serveAll libanubis_New engine rs w = Some (map (fun _ => None) rs, w') /\
    registry w' = registry w /\
    heap w' = heap w /\
    constructions (trace w') = constructions (trace w) /\
    dispatches (trace w')
    = rev (map (fun rh => (p, fst rh)) rs) ++ dispatches (trace w).
Proof.
  induction rs as [|[r next] rs IH]; intros w Hall Hr.
  - exists w. done.
  - apply Forall_cons in Hall as [Hd Hall]. cbn [fst] in Hd.
    destruct (ServeHTTP_registered r next d p w Hd Hr) as (evs & E & Hc & Hp & _).
    destruct (IH (served w (registry w) next (heap w) evs) Hall Hr)
      as (w' & E' & Hreg & Hheap & Hc' & Hp').
    exists w'. cbn [serveAll]. unfold bind at 1. rewrite E.
    unfold bind at 1. rewrite E'. split; [reflexivity|].
    split; [done|]. split; [done|]. split.
    + rewrite Hc'. cbn [served trace]. by rewrite constructions_app, Hc.
    + rewrite Hp'. cbn [served trace map rev fst].
      by rewrite dispatches_app, Hp, <- !app_assoc.
Qed.

(** Requests for one domain, the first of which builds its server. *)
Lemma serveAll_fresh rs d r next w :
  Forall (fun rh => DomainFromRequest (fst rh) = Some d) ((r, next) :: rs) ->
  registry w !! d = None ->
  libanubis_New (length (constructions (trace w))) (serverOptions d (mw w)) = None ->
  exists w',
    serveAll libanubis_New engine ((r, next) :: rs) w
    = Some (map (fun _ => None) ((r, next) :: rs), w') /\
    constructions (trace w')
    = (serverOptions d (mw w), inr (length (heap w))) :: constructions (trace w) /\
    dispatches (trace w')
    = rev (map (fun rh => (length (heap w), fst rh)) ((r, next) :: rs))
      ++ dispatches (trace w) /\
    registry w' !! d = Some (length (heap w)).
Proof.
  intros Hall Hr Hn. apply Forall_cons in Hall as [Hd Hall]. cbn [fst] in Hd.
  destruct (ServeHTTP_fresh r next d w Hd Hr Hn) as (evs & E & Hc & Hp & _).
  set (w1 := served w (<[d:=length (heap w)]> (registry w)) next
               (heap w ++ [serverOptions d (mw w)]) evs) in *.
  assert (registry w1 !! d = Some (length (heap w))) as Hr1
    by apply lookup_insert_eq.
  destruct (serveAll_registered rs d _ w1 Hall Hr1)
    as (w' & E' & Hreg & _ & Hc' & Hp').
  exists w'. split; [|split; [|split]].
  - cbn [serveAll]. unfold bind at 1. rewrite E. unfold bind at 1.
    by rewrite E'.
  - rewrite Hc'. unfold w1. cbn [served trace]. by rewrite constructions_app, Hc.
  - rewrite Hp'. unfold w1. cbn [served trace map rev fst].
    by rewrite dispatches_app, Hp, <- !app_assoc.
  - by rewrite Hreg.
Qed.

End DispatcherFacts.

(** * The dispatcher: one server per apex domain *)

Section DispatcherClaims.

Variable libanubis_New : nat -> Options -> option string.
Variable engine : nat -> ServerPtr -> Request -> Verdict.

(** C1: a sequence of requests, served one after the other, whose
    hosts all resolve to the apex domain [d], on a middleware that has
    no server for [d] yet and whose constructor succeeds: the first
    request calls [libanubis.New] once, for [d]; the later requests do
    not call it; every request returns nil and is dispatched to the
    one server built by that call (the same address); the number of
    constructions has grown by exactly one. *)
Theorem one_server_per_domain (w : World) (d : string) (r : Request)
    (next : Handler) (rs : list (Request * Handler)) :
  Forall (fun rh => DomainFromRequest (fst rh) = Some d) ((r, next) :: rs) ->
  registry w !! d = None ->
  libanubis_New (length (constructions (trace w))) (serverOptions d (mw w)) = None ->
  exists w1 w',
    ServeHTTP libanubis_New engine r next w = Some (None, w1) /\
    constructions (trace w1)
    = (serverOptions d (mw w), inr (length (heap w))) :: constructions (trace w) /\
    serveAll libanubis_New engine ((r, next) :: rs) w
    = Some (map (fun _ => None) ((r, next) :: rs), w') /\
    constructions (trace w')
    = (serverOptions d (mw w), inr (length (heap w))) :: constructions (trace w) /\
    length (constructions (trace w')) = S (length (constructions (trace w))) /\
    dispatches (trace w')
    = rev (map (fun rh => (length (heap w), fst rh)) ((r, next) :: rs))
      ++ dispatches (trace w) /\
    registry w' !! d = Some (length (heap w)).
Proof.
  intros Hall Hr Hn. apply Forall_cons in Hall as [Hd Hall]. cbn [fst] in Hd.
  destruct (ServeHTTP_fresh libanubis_New engine r next d w Hd Hr Hn)
    as (evs & E & Hc & Hp & _).
  set (w1 := served w (<[d:=length (heap w)]> (registry w)) next
               (heap w ++ [serverOptions d (mw w)]) evs) in *.
  assert (registry w1 !! d = Some (length (heap w))) as Hr1
    by apply lookup_insert_eq.
  destruct (serveAll_registered libanubis_New engine rs d _ w1 Hall Hr1)
    as (w' & E' & Hreg & _ & Hc' & Hp').
  assert (constructions (trace w1)
          = (serverOptions d (mw w), inr (length (heap w)))
            :: constructions (trace w)) as Hc1.
  { unfold w1. cbn [served trace]. by rewrite constructions_app, Hc. }
  exists w1, w'. split; [exact E|]. split; [exact Hc1|].
  split; [|split; [|split; [|split]]].
  - cbn [serveAll]. unfold bind at 1. rewrite E. unfold bind at 1.
    by rewrite E'.
  - by rewrite Hc', Hc1.
  - by rewrite Hc', Hc1.
  - rewrite Hp'. unfold w1. cbn [served trace map rev fst].
    by rewrite dispatches_app, Hp, <- !app_assoc.
  - by rewrite Hreg.
Qed.

(** C2: when [libanubis.New] fails for a domain, [ServeHTTP] returns
    that error, the registry is what it was and has no entry for the
    domain, no server was allocated and none was dispatched to; the
    next request for the domain calls [libanubis.New] again and gets
    the outcome of that new call. *)
Theorem failed_creation_is_not_cached (w : World) (d e : string)
    (r r2 : Request) (next next2 : Handler) :
  DomainFromRequest r = Some d ->
  DomainFromRequest r2 = Some d ->
  registry w !! d = None ->
  libanubis_New (length (constructions (trace w))) (serverOptions d (mw w)) = Some e ->
  exists w1,
    ServeHTTP libanubis_New engine r next w = Some (Some e, w1) /\
    registry w1 = registry w /\
    registry w1 !! d = None /\
    heap w1 = heap w /\
    constructions (trace w1)
    = (serverOptions d (mw w), inl e) :: constructions (trace w) /\
    dispatches (trace w1) = dispatches (trace w) /\
    exists res w2 attempt,
      ServeHTTP libanubis_New engine r2 next2 w1 = Some (res, w2) /\
      constructions (trace w2)
      = (serverOptions d (mw w), attempt) :: constructions (trace w1) /\
      res = match attempt with inl e2 => Some e2 | inr _ => None end /\
      registry w2 !! d = match attempt with inl _ => None | inr p => Some p end.
Proof.
  intros Hd Hd2 Hr Hn.
  pose proof (ServeHTTP_create_fails libanubis_New engine r next d w e Hd Hr Hn) as E.
  eexists. split; [exact E|].
  split; [reflexivity|]. split; [exact Hr|]. split; [reflexivity|].
  split; [reflexivity|]. split; [reflexivity|].
  match type of E with _ = Some (_, ?x) => set (w1 := x) in * end.
  assert (registry w1 !! d = None) as Hr1 by exact Hr.
  destruct (libanubis_New (length (constructions (trace w1)))
              (serverOptions d (mw w1))) as [e2|] eqn:Hn2.
  - pose proof (ServeHTTP_create_fails libanubis_New engine r2 next2 d w1 e2
                  Hd2 Hr1 Hn2) as E2.
    eexists _, _, (inl e2). split; [exact E2|].
    split; [reflexivity|]. split; [reflexivity | exact Hr].
  - destruct (ServeHTTP_fresh libanubis_New engine r2 next2 d w1 Hd2 Hr1 Hn2)
      as (evs & E2 & Hc & _).
    eexists _, _, (inr (length (heap w1))). split; [exact E2|].
    split; [|split; [reflexivity|]].
    + cbn [served trace]. rewrite constructions_app, Hc. reflexivity.
    + apply lookup_insert_eq.
Qed.

End DispatcherClaims.

(** * The dispatcher: errors and the pass-through action *)

Section PassThroughClaims.

Variable libanubis_New : nat -> Options -> option string.
Variable engine : nat -> ServerPtr -> Request -> Verdict.

(** C3, amended: an error of [libanubis.New] is logged and returned to
    the caller of [ServeHTTP] as it is.  When creation does not fail,
    [ServeHTTP] returns nil whatever the engine and the downstream
    handler do: the engine's [ServeHTTP] has no error result, and an
    error of the downstream handler on a request that passes is logged
    and not returned. *)
Theorem creation_error_returned_downstream_error_logged (w : World) (d : string)
    (r : Request) (next : Handler) :
  DomainFromRequest r = Some d ->
  (forall e,
      registry w !! d = None ->
      libanubis_New (length (constructions (trace w))) (serverOptions d (mw w)) = Some e ->
      exists w',
        ServeHTTP libanubis_New engine r next w = Some (Some e, w') /\
        errorLogs (trace w')
        = ("Anubis middleware create server error" +:+ e) :: errorLogs (trace w) /\
        dispatches (trace w') = dispatches (trace w)) /\
  (is_Some (registry w !! d) \/
   libanubis_New (length (constructions (trace w))) (serverOptions d (mw w)) = None ->
   exists p evs w',
     ServeHTTP libanubis_New engine r next w = Some (None, w') /\
     trace w' = evs ++ trace w /\
     dispatches evs = [(p, r)] /\
     (forall e,
         engine (length (dispatches (trace w))) p r = PassThrough ->
         Target (mw w) = None ->
         next r = Some e ->
         nextCalls evs = [(r, Some e)] /\
         errorLogs evs = ["Anubis error when calling Next" +:+ e])).
Proof.
  intros Hd. split.
  - intros e Hr Hn.
    rewrite (ServeHTTP_create_fails libanubis_New engine r next d w e Hd Hr Hn).
    eexists. split; [reflexivity|]. split; reflexivity.
  - intros Hc.
    destruct (ServeHTTP_served libanubis_New engine r next d w Hd Hc)
      as (p & evs & servers & hp & E & _ & Hp & He).
    exists p, evs. eexists. split; [exact E|]. split; [reflexivity|].
    split; [exact Hp|]. intros e Hv Ht Hnext.
    rewrite Hv, Ht in He. cbn in He. rewrite Hnext in He.
    destruct He as (_ & H1 & H2). done.
Qed.

End PassThroughClaims.

Section RedirectClaims.

Import NetHTTP.

Variable libanubis_New : nat -> Options -> option string.
Variable engine : nat -> ServerPtr -> Request -> Verdict.
Variable url_Parse : string -> option (string * string).
Variable path_Clean : string -> string.
Variable hexEscapeNonASCII : string -> string.

(** A URL in which [url.Parse] finds a scheme or a host, or which it
    cannot parse, goes into the [Location] header as it is, with its
    bytes outside ASCII escaped. *)
Lemma RedirectLocation_absolute r url :
  (forall scheme host,
      url_Parse url = Some (scheme, host) -> scheme <> "" \/ host <> "") ->
  RedirectLocation url_Parse path_Clean hexEscapeNonASCII r url
  = Some (hexEscapeNonASCII url).
Proof.
  intros H. unfold RedirectLocation.
  destruct (url_Parse url) as [[scheme host]|]; [|reflexivity].
  destruct (H scheme host eq_refl) as [Hs|Hh].
  - destruct (String.eqb_spec scheme ""); [done | reflexivity].
  - destruct (String.eqb_spec host ""); [done|].
    rewrite andb_false_r. reflexivity.
Qed.

(** C4, amended: a request for which a server exists or can be built
    and which the engine lets pass.  When [Target] is set, whatever the
    domain, the downstream handler is not called and [http.Redirect] is
    called once, with the request, the configured URL and status 307;
    when [url.Parse] finds a scheme or a host in that URL, the response
    has status 307 and the configured URL, its bytes outside ASCII
    escaped, as [Location].  When [Target] is nil, nothing is redirected
    and the downstream handler given with the request is called once,
    with that request. *)
Theorem passed_request_redirected_or_forwarded (w : World) (d : string)
    (r : Request) (next : Handler) :
  DomainFromRequest r = Some d ->
  is_Some (registry w !! d) \/
  libanubis_New (length (constructions (trace w))) (serverOptions d (mw w)) = None ->
  exists p evs w',
    ServeHTTP libanubis_New engine r next w = Some (None, w') /\
    trace w' = evs ++ trace w /\
    dispatches evs = [(p, r)] /\
    (engine (length (dispatches (trace w))) p r = PassThrough ->
     match Target (mw w) with
     | Some url =>
         redirects evs = [(r, url, 307)] /\ nextCalls evs = [] /\
         ((forall scheme host,
              url_Parse url = Some (scheme, host) -> scheme <> "" \/ host <> "") ->
          Redirect url_Parse path_Clean hexEscapeNonASCII r url 307
          = Some (mkResponse 307 (hexEscapeNonASCII url)))
     | None =>
         redirects evs = [] /\ nextCalls evs = [(r, next r)]
     end).
Proof.
  intros Hd Hc.
  destruct (ServeHTTP_served libanubis_New engine r next d w Hd Hc)
    as (p & evs & servers & hp & E & _ & Hp & He).
  exists p, evs. eexists. split; [exact E|]. split; [reflexivity|].
  split; [exact Hp|]. intros Hv. rewrite Hv in He. cbn in He.
  unfold passEffects in He.
  destruct (Target (mw w)) as [url|]; destruct He as (H1 & H2 & _).
  - split; [exact H1|]. split; [exact H2|]. intros Habs.
    unfold Redirect. by rewrite RedirectLocation_absolute.
  - split; [exact H1 | exact H2].
Qed.

End RedirectClaims.

(** * The claims on concrete runs *)

Section ConcreteRuns.

Import Double.

Lemma one_server_per_domain_witness :
  exists w',
    serveAll newOk passAll [(reqA, okNext); (reqB, failingNext); (reqC, okNext)]
      (newMiddleware None None)
    = Some ([None; None; None], w') /\
    length (constructions (trace w')) = 1%nat /\
    dispatches (trace w') = [(0%nat, reqC); (0%nat, reqB); (0%nat, reqA)].
Proof.
  destruct (one_server_per_domain newOk passAll (newMiddleware None None)
              "example.com" reqA okNext [(reqB, failingNext); (reqC, okNext)])
    as (w1 & w' & _ & _ & E & _ & Hc & Hp & _).
  - repeat constructor.
  - reflexivity.
  - reflexivity.
  - exists w'. split; [exact E|]. split; [exact Hc | exact Hp].
Defined.

Lemma failed_creation_is_not_cached_witness :
  exists w1,
    ServeHTTP newFailsOnce passAll reqA okNext (newMiddleware None None)
    = Some (Some "bad options", w1) /\
    registry w1 !! "example.com" = None /\
    exists res w2 attempt,
      ServeHTTP newFailsOnce passAll reqB okNext w1 = Some (res, w2) /\
      constructions (trace w2)
      = (serverOptions "example.com" (mw (newMiddleware None None)), attempt)
        :: constructions (trace w1).
Proof.
  destruct (failed_creation_is_not_cached newFailsOnce passAll
              (newMiddleware None None) "example.com" "bad options"
              reqA reqB okNext okNext)
    as (w1 & E & _ & Hr & _ & _ & _ & res & w2 & att & E2 & Hc2 & _).
  - reflexivity.
  - reflexivity.
  - reflexivity.
  - reflexivity.
  - exists w1. split; [exact E|]. split; [exact Hr|].
    exists res, w2, att. split; [exact E2 | exact Hc2].
Defined.

(** C3, as stated, fails: the downstream handler returns an error on a
    request that passed, and [ServeHTTP] returns nil; the error is
    only logged. *)
Lemma downstream_error_counterexample :
  failingNext reqA = Some "upstream down" /\
  exists w',
    ServeHTTP newOk passAll reqA failingNext (newMiddleware None None)
    = Some (None, w') /\
    nextCalls (trace w') = [(reqA, Some "upstream down")] /\
    errorLogs (trace w') = ["Anubis error when calling Nextupstream down"].
Proof.
  split; [reflexivity|]. eexists. split; [vm_compute; reflexivity|].
  split; vm_compute; reflexivity.
Qed.

Lemma creation_error_returned_downstream_error_logged_witness :
  exists w',
    ServeHTTP newFails passAll reqA okNext (newMiddleware None None)
    = Some (Some "bad options", w') /\
    errorLogs (trace w') = ["Anubis middleware create server errorbad options"].
Proof.
  destruct (creation_error_returned_downstream_error_logged newFails passAll
              (newMiddleware None None) "example.com" reqA okNext eq_refl)
    as [H _].
  destruct (H "bad options" eq_refl eq_refl) as (w' & E & Hl & _).
  exists w'. split; [exact E | exact Hl].
Defined.

(** C4, as stated, fails: with the target ["qwant.com"], which has no
    scheme, the request that passes is answered with status 307 and the
    [Location] ["/dir/qwant.com"], a path under the directory of the
    request path, not the configured URL. *)
Lemma relative_target_counterexample :
  exists w',
    ServeHTTP newOk passAll NetHTTP.reqP okNext (newMiddleware (Some "qwant.com") None)
    = Some (None, w') /\
    redirects (trace w') = [(NetHTTP.reqP, "qwant.com", 307)] /\
    NetHTTP.Redirect NetHTTP.parseDouble NetHTTP.cleanDouble NetHTTP.hexDouble
      NetHTTP.reqP "qwant.com" 307
    = Some (NetHTTP.mkResponse 307 "/dir/qwant.com") /\
    "/dir/qwant.com" <> "qwant.com".
Proof.
  eexists. split; [vm_compute; reflexivity|].
  split; [vm_compute; reflexivity|]. split; [vm_compute; reflexivity|].
  discriminate.
Qed.

Lemma passed_request_redirected_or_forwarded_witness :
  exists w',
    ServeHTTP newOk passAll reqB okNext (newMiddleware (Some "https://qwant.com") None)
    = Some (None, w') /\
    redirects (trace w') = [(reqB, "https://qwant.com", 307)] /\
    nextCalls (trace w') = [] /\
    NetHTTP.Redirect NetHTTP.parseDouble NetHTTP.cleanDouble NetHTTP.hexDouble
      reqB "https://qwant.com" 307
    = Some (NetHTTP.mkResponse 307 "https://qwant.com").
Proof.
  destruct (passed_request_redirected_or_forwarded newOk passAll
              NetHTTP.parseDouble NetHTTP.cleanDouble NetHTTP.hexDouble
              (newMiddleware (Some "https://qwant.com") None)
              "example.com" reqB okNext eq_refl (or_intror eq_refl))
    as (p & evs & w' & E & Ht & _ & H).
  destruct (H eq_refl) as (Hr & Hn & Hloc).
  exists w'. split; [exact E|]. rewrite Ht. cbn [newMiddleware trace].
  rewrite !app_nil_r. split; [exact Hr|]. split; [exact Hn|].
  apply Hloc. intros scheme host [= <- <-]. left. discriminate.
Defined.

End ConcreteRuns.

(** * Requests in flight at the same time *)

Section InterleavingFacts.

Variable libanubis_New : nat -> Options -> option string.
Variable engine : nat -> ServerPtr -> Request -> Verdict.

Lemma run_app s1 : forall s2 ts w,
  run libanubis_New engine (s1 ++ s2) ts w
  = match run libanubis_New engine s1 ts w with
    | Some (ts1, w1) => run libanubis_New engine s2 ts1 w1
    | None => None
    end.
Proof.
  induction s1 as [|i s1 IH]; intros s2 ts w; [done|].
  cbn [app run]. destruct (ts !! i) as [t|]; [|apply IH].
  unfold bind. destruct (stepTask libanubis_New engine t w) as [[t' w1]|]; [|done].
  apply IH.
Qed.

(** A request that is the only one to move for [n] steps. *)
Lemma run_repeat i r next n : forall ts p w,
  ts !! i = Some (mkTask r next p) ->
  run libanubis_New engine (repeat i n) ts w
  = match steps libanubis_New engine n r next p w with
    | Some (p', w') => Some (<[i:=mkTask r next p']> ts, w')
    | None => None
    end.
Proof.
  induction n as [|n IH]; intros ts p w Hi.
  - cbn. by rewrite list_insert_id.
  - assert (i < length ts)%nat as Hlt by (by eapply lookup_lt_Some).
    cbn [repeat run steps]. rewrite Hi. unfold stepTask, bind.
    cbn [req downstream pc].
    destruct (stepPc libanubis_New engine r next p w) as [[p1 w1]|]; [|done].
    unfold ret. cbv beta iota.
    rewrite (IH _ p1 w1) by (by apply list_lookup_insert_eq).
    destruct (steps libanubis_New engine n r next p1 w1) as [[p' w']|]; [|done].
    by rewrite list_insert_insert_eq.
Qed.

Lemma steps_finished n r next e w :
  steps libanubis_New engine n r next (Finished e) w = Some (Finished e, w).
Proof. induction n as [|n IH]; [done|]. cbn [steps stepPc]. exact IH. Qed.

(** Lines 169 and 109-119 in two steps are the server's [ServeHTTP]. *)
Lemma steps_dispatch n r next d w :
  steps libanubis_New engine (S (S n)) r next (AtDispatch d) w
  = match Server_ServeHTTP engine (registry w !! d) r w with
    | Some (_, w') => Some (Finished None, w')
    | None => None
    end.
Proof.
  cbn [steps stepPc]. unfold dispatch, Server_ServeHTTP, registry, bind at 1 2.
  unfold getM at 1. cbv beta iota.
  destruct (default ∅ (AnubisServers (mw w)) !! d) as [p|]; [|done].
  unfold bind, getTrace, emit, ret. cbv beta iota. cbn [trace].
  destruct (engine (length (dispatches (trace w))) p r).
  - apply steps_finished.
  - apply steps_finished.
  - cbn [steps stepPc]. unfold bind.
    destruct (passThrough r _) as [[[] w']|]; [|done]. apply steps_finished.
Qed.

(** Lines 165-170 in three steps are [delegate]. *)
Lemma steps_delegate n r next d w :
  steps libanubis_New engine (S (S (S n))) r next (AtDelegate d) w
  = match delegate engine d r next w with
    | Some (e, w') => Some (Finished e, w')
    | None => None
    end.
Proof.
  change (steps libanubis_New engine (S (S (S n))) r next (AtDelegate d) w)
    with (bind (bind (announce r next) (fun _ => ret (AtDispatch d)))
            (steps libanubis_New engine (S (S n)) r next) w).
  unfold bind at 1 2. unfold announce, delegate, bind, logInfo, emit, getM, putM, ret.
  cbv beta iota. rewrite steps_dispatch. unfold registry. cbn [mw AnubisServers].
  destruct (Server_ServeHTTP engine _ r _) as [[[] w']|]; reflexivity.
Qed.

Lemma steps_S n r next p w :
  steps libanubis_New engine (S n) r next p w
  = match stepPc libanubis_New engine r next p w with
    | Some (p', w') => steps libanubis_New engine n r next p' w'
    | None => None
    end.
Proof. reflexivity. Qed.

(** From the lookup on, a request that moves alone does what
    [ServeHTTP] does on a middleware whose map has been made. *)
Lemma steps_lookup n r next d w :
  DomainFromRequest r = Some d ->
  AnubisServers (mw w) <> None ->
  steps libanubis_New engine (S (S (S (S (S (S n)))))) r next (AtLookup d) w
  = match ServeHTTP libanubis_New engine r next w with
    | Some (e, w') => Some (Finished e, w')
    | None => None
    end.
Proof.
  intros Hd Hs. destruct w as [[T P [servers|] N] h tr]; [clear Hs | done].
  set (w := mkWorld (mkMiddleware T P (Some servers) N) h tr).
  unfold ServeHTTP, CreateAnubisServer, bind, liftOpt, ret. rewrite Hd.
  destruct (registry w !! d) as [p|] eqn:Hr.
  - rewrite (lookupServer_found r d p w Hd Hr). cbv beta iota.
    assert (stepPc libanubis_New engine r next (AtLookup d) w
            = Some (AtDelegate d,
                    mkWorld (mw w) (heap w)
                      (LogInfo ("Anubis server already created for: " +:+ d)
                       :: trace w))) as E.
    { cbn [stepPc]. unfold findServer, bind, getM, logInfo, emit, ret.
      cbv beta iota.
      change (default ∅ (AnubisServers (mw w)) !! d) with (registry w !! d).
      by rewrite Hr. }
    rewrite steps_S, E, (steps_delegate (S (S n))).
    destruct (delegate engine d r next _) as [[e w']|]; reflexivity.
  - rewrite (lookupServer_missing r d w Hd Hr). cbv beta iota.
    change (mkWorld (mkMiddleware (Target (mw w)) (AnubisPolicy (mw w))
                       (Some (registry w)) (Next (mw w))) (heap w) (trace w))
      with w.
    assert (stepPc libanubis_New engine r next (AtLookup d) w = Some (AtNew d, w))
      as E.
    { cbn [stepPc]. unfold findServer, bind, getM, ret. cbv beta iota.
      change (default ∅ (AnubisServers (mw w)) !! d) with (registry w !! d).
      by rewrite Hr. }
    rewrite steps_S, E, steps_S. cbn [stepPc]. unfold bind at 1 2.
    destruct (libanubis_New (length (constructions (trace w)))
                (serverOptions d (mw w))) as [e|] eqn:Hn.
    + rewrite (newServer_fails libanubis_New d w e Hn). cbv beta iota.
      unfold createFailed, bind, logError, emit, ret. cbv beta iota.
      apply steps_finished.
    + rewrite (newServer_succeeds libanubis_New d w Hn). cbv beta iota.
      unfold ret at 1. cbv beta iota. rewrite steps_S. cbn [stepPc].
      unfold bind. erewrite storeServer_made by reflexivity.
      unfold ret. cbv beta iota. rewrite (steps_delegate n).
      destruct (delegate engine d r next _) as [[e w']|]; reflexivity.
Qed.

(** On a nil map [ServeHTTP] first makes the map. *)
Lemma ServeHTTP_nil_map r next T P N h tr :
  ServeHTTP libanubis_New engine r next (mkWorld (mkMiddleware T P None N) h tr)
  = ServeHTTP libanubis_New engine r next (mkWorld (mkMiddleware T P (Some ∅) N) h tr).
Proof.
  unfold ServeHTTP, CreateAnubisServer, bind.
  destruct (liftOpt (DomainFromRequest r) _) as [[d w0]|] eqn:E; [|].
  - destruct (DomainFromRequest r) as [d'|] eqn:Hd; [|discriminate E].
    cbn in E. injection E as -> <-.
    cbn [liftOpt]. unfold ret at 1. unfold ret at 5. cbv beta iota.
    assert (lookupServer r (mkWorld (mkMiddleware T P None N) h tr)
            = lookupServer r (mkWorld (mkMiddleware T P (Some ∅) N) h tr)) as ->.
    { unfold lookupServer, bind, liftOpt, getM, putM, ret. rewrite Hd. reflexivity. }
    reflexivity.
  - destruct (DomainFromRequest r); [discriminate E | reflexivity].
Qed.

(** A request that moves alone from the entry for eight steps does
    what [ServeHTTP] does. *)
Lemma steps_alone r next w :
  steps libanubis_New engine 8 r next AtEntry w
  = match ServeHTTP libanubis_New engine r next w with
    | Some (e, w') => Some (Finished e, w')
    | None => None
    end.
Proof.
  destruct (DomainFromRequest_total r) as [d Hd].
  destruct w as [[T P [servers|] N] h tr].
  - rewrite <- (steps_lookup 1 r next d _ Hd) by done.
    cbn [steps stepPc]. unfold enter, bind at 1 2 3. unfold liftOpt, getM, ret.
    rewrite Hd. reflexivity.
  - rewrite ServeHTTP_nil_map.
    rewrite <- (steps_lookup 0 r next d _ Hd) by done.
    cbn [steps stepPc]. unfold enter, bind at 1 2 3. unfold liftOpt, getM, ret.
    rewrite Hd. cbv beta iota. cbn [mw AnubisServers]. cbv beta iota.
    unfold makeServers, bind at 1 2 3. unfold getM, putM, ret. reflexivity.
Qed.

Lemma run_alone i ts r next w :
  ts !! i = Some (mkTask r next AtEntry) ->
  run libanubis_New engine [i; i; i; i; i; i; i; i] ts w
  = match ServeHTTP libanubis_New engine r next w with
    | Some (e, w') => Some (<[i:=mkTask r next (Finished e)]> ts, w')
    | None => None
    end.
Proof.
  intros Hi. change [i; i; i; i; i; i; i; i] with (repeat i 8).
  rewrite (run_repeat i r next 8 ts AtEntry w Hi), steps_alone.
  destruct (ServeHTTP libanubis_New engine r next w) as [[e w']|]; reflexivity.
Qed.

(** Run one by one, the requests do what [serveAll] does. *)
Lemma run_oneByOne rs : forall finished w,
  run libanubis_New engine
    (flat_map (fun i => [i; i; i; i; i; i; i; i])
       (seq (length finished) (length rs)))
    (finished ++ arrivals rs) w
  = match serveAll libanubis_New engine rs w with
    | Some (es, w') => Some (finished ++ finishedTasks rs es, w')
    | None => None
    end.
Proof.
  induction rs as [|[r next] rs IH]; intros finished w.
  - reflexivity.
  - cbn [length seq flat_map arrivals map fst snd].
    rewrite run_app.
    rewrite (run_alone _ _ r next) by (by apply list_lookup_middle).
    cbn [serveAll]. unfold bind at 1.
    destruct (ServeHTTP libanubis_New engine r next w) as [[e w1]|]; [|done].
    replace (<[length finished:=mkTask r next (Finished e)]>
               (finished ++ mkTask r next AtEntry :: map _ rs))
      with ((finished ++ [mkTask r next (Finished e)]) ++ arrivals rs).
    2:{ rewrite insert_app_r_alt by lia. rewrite Nat.sub_diag. cbn.
        by rewrite <- app_assoc. }
    replace (S (length finished))
      with (length (finished ++ [mkTask r next (Finished e)]))
      by (rewrite length_app; cbn; lia).
    rewrite IH. unfold bind.
    destruct (serveAll libanubis_New engine rs w1) as [[es w']|]; [|done].
    unfold ret, finishedTasks. cbn. by rewrite <- app_assoc.
Qed.

End InterleavingFacts.

Section InterleavingClaims.

Variable libanubis_New : nat -> Options -> option string.
Variable engine : nat -> ServerPtr -> Request -> Verdict.

(** C9, amended: when the first requests for a domain without a server
    do not overlap (each runs all its steps before the next one
    starts), [libanubis.New] is called exactly once, by the first of
    them, every request returns nil and all are dispatched to the one
    server built.  [ServeHTTP] takes no lock, and nothing is claimed for
    requests that overlap. *)
Theorem first_requests_one_by_one (w : World) (d : string)
    (r : Request) (next : Handler) (rs : list (Request * Handler)) :
  Forall (fun rh => DomainFromRequest (fst rh) = Some d) ((r, next) :: rs) ->
  registry w !! d = None ->
  libanubis_New (length (constructions (trace w))) (serverOptions d (mw w)) = None ->
  exists w',
    run libanubis_New engine (oneByOne (length ((r, next) :: rs)))
      (arrivals ((r, next) :: rs)) w
    = Some (finishedTasks ((r, next) :: rs)
              (map (fun _ => None) ((r, next) :: rs)), w') /\
    constructions (trace w')
    = (serverOptions d (mw w), inr (length (heap w))) :: constructions (trace w) /\
    length (constructions (trace w')) = S (length (constructions (trace w))) /\
    dispatches (trace w')
    = rev (map (fun rh => (length (heap w), fst rh)) ((r, next) :: rs))
      ++ dispatches (trace w).
Proof.
  intros Hall Hr Hn.
  destruct (serveAll_fresh libanubis_New engine rs d r next w Hall Hr Hn)
    as (w' & E & Hc & Hp & _).
  exists w'. split; [|split; [exact Hc | split; [by rewrite Hc | exact Hp]]].
  unfold oneByOne.
  pose proof (run_oneByOne libanubis_New engine ((r, next) :: rs) [] w) as H.
  cbn [length app] in H. cbn [length]. rewrite H, E. reflexivity.
Qed.

End InterleavingClaims.

Section ConcreteInterleavings.

Import Double.

(** C9, as stated, fails.  Two first requests for ["example.com"] on a
    fresh middleware: when both look the domain up before either stores
    its server, [libanubis.New] is called twice and the two requests are
    dispatched to two different servers; and when the second request
    makes the map after the first has stored its server, that server is
    lost and the first request calls [ServeHTTP] on a nil server at line
    169. *)
Lemma racing_first_requests_counterexample :
  DomainFromRequest reqA = Some "example.com" /\
  DomainFromRequest reqB = Some "example.com" /\
  (exists ts' w',
      run newOk challengeAll [0; 0; 0; 1; 1; 0; 0; 0; 0; 1; 1; 1; 1]%nat
        (arrivals [(reqA, okNext); (reqB, okNext)]) (newMiddleware None None)
      = Some (ts', w') /\
      map pc ts' = [Finished None; Finished None] /\
      length (constructions (trace w')) = 2%nat /\
      dispatches (trace w') = [(1%nat, reqB); (0%nat, reqA)]) /\
  (exists ts' w',
      run newOk challengeAll [1; 0; 0; 0; 0; 0; 1]%nat
        (arrivals [(reqA, okNext); (reqB, okNext)]) (newMiddleware None None)
      = Some (ts', w') /\
      map pc ts' = [AtDelegate "example.com"; AtLookup "example.com"] /\
      length (constructions (trace w')) = 1%nat /\
      registry w' !! "example.com" = None) /\
  run newOk challengeAll [1; 0; 0; 0; 0; 0; 1; 0; 0]%nat
    (arrivals [(reqA, okNext); (reqB, okNext)]) (newMiddleware None None)
  = None.
Proof.
  split; [reflexivity|]. split; [reflexivity|]. split; [|split].
  - do 2 eexists. split; [vm_compute; reflexivity|].
    repeat split; vm_compute; reflexivity.
  - do 2 eexists. split; [vm_compute; reflexivity|].
    repeat split; vm_compute; reflexivity.
  - vm_compute. reflexivity.
Qed.

Lemma first_requests_one_by_one_witness :
  exists w',
    run newOk challengeAll (oneByOne 2)
      (arrivals [(reqA, okNext); (reqB, okNext)]) (newMiddleware None None)
    = Some (finishedTasks [(reqA, okNext); (reqB, okNext)] [None; None], w') /\
    length (constructions (trace w')) = 1%nat /\
    dispatches (trace w') = [(0%nat, reqB); (0%nat, reqA)].
Proof.
  destruct (first_requests_one_by_one newOk challengeAll (newMiddleware None None)
              "example.com" reqA okNext [(reqB, okNext)])
    as (w' & E & _ & Hc & Hp).
  - repeat constructor.
  - reflexivity.
  - reflexivity.
  - exists w'. split; [exact E|]. split; [exact Hc | exact Hp].
Defined.

End ConcreteInterleavings.

(** * More about the resolver *)

Section ResolverMore.

#[local] Arguments String.append : simpl nomatch.

Lemma all_digits_bracket x : all_digits (x +:+ "]") = false.
Proof.
  induction x as [|b x IH]; [reflexivity|]. simpl.
  destruct (byte_lt b "0" || byte_lt "9" b); [done | exact IH].
Qed.

(** A string that ends in a closing bracket does not end in a colon
    followed by digits. *)
Lemma bracket_end_no_port ds : forall x a,
  x +:+ "]" = a +:+ String ":" ds -> all_digits ds = false.
Proof.
  intros x. induction x as [|c x IH]; intros a E.
  - destruct a as [|c' a]; simpl in E; [discriminate|].
    injection E as _ E. destruct a; discriminate.
  - destruct a as [|c' a]; simpl in E.
    + injection E as _ <-. apply all_digits_bracket.
    + injection E as _ E. by apply (IH a).
Qed.

Lemma stripBrackets_shape pre host :
  stripBrackets pre = Some host -> pre = host \/ pre = String "[" (host +:+ "]").
Proof.
  intros H. destruct (stripBrackets_cases pre) as [E|(a & -> & E)].
  - left. congruence.
  - right. rewrite E in H. by injection H as ->.
Qed.

(** The port [splitHostPort] returns is a string of digits, possibly
    empty. *)
Theorem splitHostPort_port_is_numeric (hostPort host port : string) :
  splitHostPort hostPort = Some (host, port) ->
  all_digits port = true.
Proof.
  unfold splitHostPort.
  destruct (stripPort_cases hostPort) as [->|(a & ds & _ & Hd & ->)]; simpl.
  - destruct (stripBrackets hostPort); simpl; [|done]. by intros [= _ <-].
  - destruct (stripBrackets a); simpl; [|done]. by intros [= _ <-].
Qed.

Lemma splitHostPort_port_is_numeric_witness :
  splitHostPort "[2001:db8::1]:8443" = Some ("2001:db8::1", "8443") /\
  all_digits "8443" = true.
Proof.
  split; [reflexivity|].
  apply (splitHostPort_port_is_numeric "[2001:db8::1]:8443" "2001:db8::1" "8443").
  reflexivity.
Defined.

(** [splitHostPort] loses nothing but one colon and one pair of
    brackets: the input is the host, bare or in brackets, followed by
    nothing or by a colon and the port. *)
Theorem splitHostPort_reassembles (hostPort host port : string) :
  splitHostPort hostPort = Some (host, port) ->
  (port = "" /\ hostPort = host) \/
  (port = "" /\ hostPort = String "[" (host +:+ "]")) \/
  hostPort = host +:+ String ":" port \/
  hostPort = String "[" (host +:+ "]") +:+ String ":" port.
Proof.
  unfold splitHostPort.
  destruct (stripPort_cases hostPort) as [->|(a & ds & -> & _ & ->)]; simpl.
  - destruct (stripBrackets hostPort) as [h|] eqn:Hb; simpl; [|done].
    intros [= <- <-]. destruct (stripBrackets_shape _ _ Hb) as [->| ->]; auto.
  - destruct (stripBrackets a) as [h|] eqn:Hb; simpl; [|done].
    intros [= <- <-]. destruct (stripBrackets_shape _ _ Hb) as [->| ->]; auto.
Qed.

Lemma splitHostPort_reassembles_witness :
  splitHostPort "example.com:" = Some ("example.com", "") /\
  "example.com:" = "example.com" +:+ String ":" "".
Proof.
  split; [reflexivity|].
  destruct (splitHostPort_reassembles "example.com:" "example.com" "" eq_refl)
    as [[_ H]|[[_ H]|[H|H]]]; try discriminate H. exact H.
Defined.

(** A host in brackets with no port after the closing bracket is
    unwrapped and nothing of it is taken for a port, whatever stands
    between the brackets: an IPv6 literal keeps all its colons. *)
Theorem bracketed_host_without_port (a : string) :
  splitHostPort (String "[" (a +:+ "]")) = Some (a, "").
Proof.
  apply splitHostPort_no_port; [|apply stripBrackets_wrapped].
  destruct (stripPort_cases (String "[" (a +:+ "]"))) as [E|(x & ds & E & Hd & _)];
    [exact E|].
  change (String "[" (a +:+ "]")) with (String "[" a +:+ "]") in E.
  apply bracket_end_no_port in E. congruence.
Qed.

(** [splitSubDomainDomain] cuts at a dot and loses nothing else: the
    host is the domain itself, with no subdomain, or the subdomain, a
    dot and the domain. *)
Theorem splitSubDomainDomain_reassembles (host subdomain domain : string) :
  splitSubDomainDomain host = Some (subdomain, domain) ->
  (subdomain = "" /\ host = domain) \/
  host = subdomain +:+ String "." domain.
Proof.
  destruct (dot_shapes host)
    as [H|[(a & b & -> & Ha & Hb)|(s & l1 & l2 & -> & H1 & H2)]].
  - rewrite (splitSub_no_dot _ H). intros [= <- <-]. by left.
  - rewrite (splitSub_one_dot _ _ Ha Hb). intros [= <- <-]. by left.
  - rewrite (splitSub_two_labels _ _ _ H1 H2). intros [= <- <-]. by right.
Qed.

Lemma splitSubDomainDomain_reassembles_witness :
  splitSubDomainDomain "foo.bar.co.uk" = Some ("foo.bar", "co.uk") /\
  "foo.bar.co.uk" = "foo.bar" +:+ String "." "co.uk".
Proof.
  split; [reflexivity|].
  destruct (splitSubDomainDomain_reassembles "foo.bar.co.uk" "foo.bar" "co.uk" eq_refl)
    as [[H _]|H]; [discriminate H | exact H].
Defined.

(** The domain [splitSubDomainDomain] returns has no subdomain of its
    own: splitting it again returns it unchanged. *)
Theorem splitSubDomainDomain_idempotent (host subdomain domain : string) :
  splitSubDomainDomain host = Some (subdomain, domain) ->
  splitSubDomainDomain domain = Some ("", domain).
Proof.
  destruct (dot_shapes host)
    as [H|[(a & b & -> & Ha & Hb)|(s & l1 & l2 & -> & H1 & H2)]].
  - rewrite (splitSub_no_dot _ H). intros [= <- <-]. by apply splitSub_no_dot.
  - rewrite (splitSub_one_dot _ _ Ha Hb). intros [= <- <-].
    by apply splitSub_one_dot.
  - rewrite (splitSub_two_labels _ _ _ H1 H2). intros [= <- <-].
    by apply splitSub_one_dot.
Qed.

Lemma splitSubDomainDomain_idempotent_witness :
  splitSubDomainDomain "a.b.example.com" = Some ("a.b", "example.com") /\
  splitSubDomainDomain "example.com" = Some ("", "example.com").
Proof.
  split; [reflexivity|].
  apply (splitSubDomainDomain_idempotent "a.b.example.com" "a.b" "example.com").
  reflexivity.
Defined.

(** Hosts that differ in their subdomain and in their port only share
    the apex domain: whatever stands in front of the last two labels,
    and whatever numeric port follows, the apex domain is these two
    labels. *)
Theorem subdomains_and_ports_share_apex (s l1 l2 ds path : string) :
  hasByte "." l1 = false ->
  hasByte "." l2 = false ->
  all_digits ds = true ->
  HasPrefix (s +:+ String "." (l1 +:+ String "." l2)) "[" = false ->
  DomainFromRequest
    (mkRequest ((s +:+ String "." (l1 +:+ String "." l2)) +:+ String ":" ds) path)
  = Some (l1 +:+ String "." l2).
Proof.
  intros H1 H2 Hd Hp.
  rewrite (DomainFromRequest_split (mkRequest _ path)
             (s +:+ String "." (l1 +:+ String "." l2)) ds).
  - by rewrite (splitSub_two_labels _ _ _ H1 H2).
  - apply splitHostPort_port; [done|]. by apply stripBrackets_plain.
Qed.

Lemma subdomains_and_ports_share_apex_witness :
  DomainFromRequest (mkRequest "a.example.com:80" "/")
  = DomainFromRequest (mkRequest "b.c.example.com:8443" "/").
Proof.
  exact (eq_trans
           (subdomains_and_ports_share_apex "a" "example" "com" "80" "/"
              eq_refl eq_refl eq_refl eq_refl)
           (eq_sym
              (subdomains_and_ports_share_apex "b.c" "example" "com" "8443" "/"
                 eq_refl eq_refl eq_refl eq_refl))).
Defined.

End ResolverMore.

(** * More about the dispatcher *)

Section DispatcherMore.

Variable libanubis_New : nat -> Options -> option string.
Variable engine : nat -> ServerPtr -> Request -> Verdict.

(** What a request does to the middleware, whatever happens to it. *)
Lemma ServeHTTP_effects r next d w :
  DomainFromRequest r = Some d ->
  exists res w',
    ServeHTTP libanubis_New engine r next w = Some (res, w') /\
    (forall d', d' <> d -> registry w' !! d' = registry w !! d') /\
    (forall p, registry w !! d = Some p -> registry w' !! d = Some p) /\
    Target (mw w') = Target (mw w) /\
    AnubisPolicy (mw w') = AnubisPolicy (mw w).
Proof.
  intros Hd. destruct (registry w !! d) as [p|] eqn:Hr.
  - destruct (ServeHTTP_registered libanubis_New engine r next d p w Hd Hr)
      as (evs & E & _).
    do 2 eexists. split; [exact E|]. split; [done|].
    split; [intros p0 [= <-]; exact Hr | done].
  - destruct (libanubis_New (length (constructions (trace w)))
                (serverOptions d (mw w))) as [e|] eqn:Hn.
    + do 2 eexists.
      split; [exact (ServeHTTP_create_fails libanubis_New engine r next d w e Hd Hr Hn)|].
      done.
    + destruct (ServeHTTP_fresh libanubis_New engine r next d w Hd Hr Hn)
        as (evs & E & _).
      do 2 eexists. split; [exact E|]. split; [|done].
      intros d' Hne. unfold registry at 1. cbn -[lookup].
      by rewrite lookup_insert_ne.
Qed.

(** Served one after the other, requests never remove or replace a
    registered server: a domain keeps the server it has, whatever
    requests follow, for whatever domains, and whether their
    constructions succeed or fail. *)
Theorem registered_servers_persist (rs : list (Request * Handler)) (w w' : World)
    (es : list (option string)) (d : string) (p : ServerPtr) :
  serveAll libanubis_New engine rs w = Some (es, w') ->
  registry w !! d = Some p ->
  registry w' !! d = Some p.
Proof.
  revert w es. induction rs as [|[r next] rs IH]; intros w es E Hr.
  - by injection E as _ <-.
  - destruct (DomainFromRequest_total r) as [dr Hd].
    destruct (ServeHTTP_effects r next dr w Hd) as (res & w1 & E1 & Hother & Hsame & _).
    cbn [serveAll] in E. unfold bind at 1 in E. rewrite E1 in E.
    unfold bind at 1 in E.
    destruct (serveAll libanubis_New engine rs w1) as [[es1 w2]|] eqn:E2; [|done].
    injection E as _ <-. apply (IH w1 es1 E2).
    destruct (decide (d = dr)) as [->|Hne].
    + by apply Hsame.
    + by rewrite Hother.
Qed.

(** A request touches the registry entry of its own apex domain only,
    and leaves [Target] and the policy alone. *)
Theorem other_domains_untouched (w w' : World) (r : Request) (next : Handler)
    (res : option string) (d d' : string) :
  DomainFromRequest r = Some d ->
  ServeHTTP libanubis_New engine r next w = Some (res, w') ->
  d' <> d ->
  registry w' !! d' = registry w !! d' /\
  Target (mw w') = Target (mw w) /\
  AnubisPolicy (mw w') = AnubisPolicy (mw w).
Proof.
  intros Hd E Hne.
  destruct (ServeHTTP_effects r next d w Hd) as (res1 & w1 & E1 & Hother & _ & Ht & Hp).
  rewrite E1 in E. injection E as _ <-. auto.
Qed.

(** A request whose server cannot be built is answered with the error
    only: it is not dispatched to any server, not redirected and not
    handed to the downstream handler. *)
Theorem failed_creation_serves_nothing (w : World) (d e : string)
    (r : Request) (next : Handler) :
  DomainFromRequest r = Some d ->
  registry w !! d = None ->
  libanubis_New (length (constructions (trace w))) (serverOptions d (mw w)) = Some e ->
  exists w',
    ServeHTTP libanubis_New engine r next w = Some (Some e, w') /\
    dispatches (trace w') = dispatches (trace w) /\
    redirects (trace w') = redirects (trace w) /\
    nextCalls (trace w') = nextCalls (trace w) /\
    Next (mw w') = Next (mw w).
Proof.
  intros Hd Hr Hn.
  rewrite (ServeHTTP_create_fails libanubis_New engine r next d w e Hd Hr Hn).
  eexists. split; [reflexivity|]. done.
Qed.

(** A request that the engine answers itself, with its challenge page
    or its robots file, is neither redirected nor handed to the
    downstream handler, and nothing is logged as an error; [ServeHTTP]
    still returns nil. *)
Theorem challenged_request_goes_nowhere (w : World) (d : string)
    (r : Request) (next : Handler) :
  DomainFromRequest r = Some d ->
  is_Some (registry w !! d) \/
  libanubis_New (length (constructions (trace w))) (serverOptions d (mw w)) = None ->
  exists p evs w',
    ServeHTTP libanubis_New engine r next w = Some (None, w') /\
    trace w' = evs ++ trace w /\
    dispatches evs = [(p, r)] /\
    (engine (length (dispatches (trace w))) p r <> PassThrough ->
     redirects evs = [] /\ nextCalls evs = [] /\ errorLogs evs = []).
Proof.
  intros Hd Hc.
  destruct (ServeHTTP_served libanubis_New engine r next d w Hd Hc)
    as (p & evs & servers & hp & E & _ & Hp & He).
  exists p, evs. eexists. split; [exact E|]. split; [reflexivity|].
  split; [exact Hp|]. intros Hv.
  destruct (engine (length (dispatches (trace w))) p r); [exact He | exact He | done].
Qed.

End DispatcherMore.

(** * Every request reaches a server of its own domain *)

Section Isolation.

Variable libanubis_New : nat -> Options -> option string.
Variable engine : nat -> ServerPtr -> Request -> Verdict.

Lemma newMiddleware_isolated target policy : isolated (newMiddleware target policy).
Proof.
  split.
  - intros d p H. unfold registry in H. cbn -[lookup] in H.
    by rewrite lookup_empty in H.
  - intros p r H. cbn in H. by apply elem_of_nil in H.
Qed.

(** No server is registered under two domains. *)
Lemma isolated_injective w d1 d2 p :
  isolated w ->
  registry w !! d1 = Some p -> registry w !! d2 = Some p -> d1 = d2.
Proof.
  intros [Hreg _] H1 H2.
  destruct (Hreg _ _ H1) as (o1 & Ho1 & <-).
  destruct (Hreg _ _ H2) as (o2 & Ho2 & <-).
  congruence.
Qed.

(** One request keeps every server with its domain. *)
Lemma ServeHTTP_isolated r next w res w' :
  isolated w ->
  ServeHTTP libanubis_New engine r next w = Some (res, w') ->
  isolated w'.
Proof.
  intros [Hreg Hdis] E. destruct (DomainFromRequest_total r) as [d Hd].
  destruct (registry w !! d) as [p|] eqn:Hr.
  - destruct (ServeHTTP_registered libanubis_New engine r next d p w Hd Hr)
      as (evs & E1 & _ & Hp & _).
    rewrite E1 in E. injection E as _ <-. split.
    + intros d' q Hq. destruct (Hreg d' q Hq) as (o & Ho & Hc). by exists o.
    + intros q r'. cbn [served trace]. rewrite dispatches_app, Hp.
      intros Hq. apply elem_of_cons in Hq as [[= -> ->]|Hq].
      * exists d. split; [exact Hd|].
        destruct (Hreg d p Hr) as (o & Ho & Hc). by exists o.
      * destruct (Hdis q r' Hq) as (dq & Hdq & (o & Ho & Hc)).
        exists dq. split; [done|]. by exists o.
  - destruct (libanubis_New (length (constructions (trace w)))
                (serverOptions d (mw w))) as [e|] eqn:Hn.
    + rewrite (ServeHTTP_create_fails libanubis_New engine r next d w e Hd Hr Hn) in E.
      injection E as _ <-. split.
      * intros d' q Hq. destruct (Hreg d' q Hq) as (o & Ho & Hc). by exists o.
      * intros q r' Hq. destruct (Hdis q r' Hq) as (dq & Hdq & (o & Ho & Hc)).
        exists dq. split; [done|]. by exists o.
    + destruct (ServeHTTP_fresh libanubis_New engine r next d w Hd Hr Hn)
        as (evs & E1 & _ & Hp & _).
      rewrite E1 in E. injection E as _ <-.
      assert (forall q dq, builtFor w q dq ->
                builtFor (served w (<[d:=length (heap w)]> (registry w)) next
                            (heap w ++ [serverOptions d (mw w)]) evs) q dq) as Hb.
      { intros q dq (o & Ho & Hc). exists o. split; [|done].
        cbn [served heap]. by apply lookup_app_l_Some. }
      assert (builtFor (served w (<[d:=length (heap w)]> (registry w)) next
                          (heap w ++ [serverOptions d (mw w)]) evs)
                (length (heap w)) d) as Hnew.
      { exists (serverOptions d (mw w)). split; [|reflexivity].
        cbn [served heap]. by apply list_lookup_middle. }
      split.
      * intros d' q. unfold registry at 1. cbn -[lookup].
        destruct (decide (d = d')) as [<-|Hne].
        -- rewrite lookup_insert_eq. intros [= <-]. exact Hnew.
        -- rewrite lookup_insert_ne by done. intros Hq. apply Hb. by apply Hreg.
      * intros q r'. cbn [served trace]. rewrite dispatches_app, Hp.
        intros Hq. apply elem_of_cons in Hq as [[= -> ->]|Hq].
        -- exists d. split; [exact Hd | exact Hnew].
        -- destruct (Hdis q r' Hq) as (dq & Hdq & Hbq).
           exists dq. split; [done|]. by apply Hb.
Qed.

Lemma serveAll_isolated rs : forall w es w',
  isolated w ->
  serveAll libanubis_New engine rs w = Some (es, w') ->
  isolated w'.
Proof.
  induction rs as [|[r next] rs IH]; intros w es w' Hiso E.
  - by injection E as _ <-.
  - cbn [serveAll] in E. unfold bind at 1 in E.
    destruct (ServeHTTP libanubis_New engine r next w) as [[e w1]|] eqn:E1; [|done].
    unfold bind at 1 in E.
    destruct (serveAll libanubis_New engine rs w1) as [[es1 w2]|] eqn:E2; [|done].
    injection E as _ <-. apply (IH w1 es1 w2); [|exact E2].
    by eapply ServeHTTP_isolated.
Qed.

(** Served one after the other, whatever the requests, their hosts, the
    constructor and the engine: each request that is dispatched goes to
    a server built with the cookie domain that is the apex domain of
    the request's own host; each registered server was built for the
    domain it is registered under, so no server is registered under two
    domains. *)
Theorem requests_reach_their_own_domain (rs : list (Request * Handler))
    (w w' : World) (es : list (option string)) :
  isolated w ->
  serveAll libanubis_New engine rs w = Some (es, w') ->
  (forall p r, (p, r) ∈ dispatches (trace w') ->
     exists o, heap w' !! p = Some o /\
               DomainFromRequest r = Some (CookieDomain o)) /\
  (forall d p, registry w' !! d = Some p ->
     exists o, heap w' !! p = Some o /\ CookieDomain o = d) /\
  (forall d1 d2 p,
     registry w' !! d1 = Some p -> registry w' !! d2 = Some p -> d1 = d2).
Proof.
  intros Hiso E. pose proof (serveAll_isolated rs w es w' Hiso E) as Hiso'.
  split; [|split].
  - intros p r H. destruct Hiso' as [_ Hdis].
    destruct (Hdis p r H) as (d & Hd & (o & Ho & <-)). by exists o.
  - intros d p H. destruct Hiso' as [Hreg _]. by apply Hreg.
  - intros d1 d2 p. by apply isolated_injective.
Qed.

End Isolation.

(** * Provisioning *)

Section ProvisionFacts.

Variable LoadPoliciesOrDefault : string -> Z -> string + nat.
Variable DefaultDifficulty : Z.
Variable libanubis_New : nat -> Options -> option string.
Variable engine : nat -> ServerPtr -> Request -> Verdict.

(** When the policy cannot be loaded, [Provision] returns the loader's
    error and leaves the middleware as it was: the policy, the target
    and the registry are untouched, and only the first of its two log
    lines is written. *)
Theorem provision_failure_changes_nothing (w : World) (e : string) :
  LoadPoliciesOrDefault "" DefaultDifficulty = inl e ->
  exists w',
    Provision LoadPoliciesOrDefault DefaultDifficulty w = Some (Some e, w') /\
    mw w' = mw w /\
    heap w' = heap w /\
    trace w' = LogInfo "Anubis middleware provisioning" :: trace w.
Proof.
  intros Hl. unfold Provision, bind, logInfo, emit. rewrite Hl.
  eexists. split; [reflexivity|]. done.
Qed.

(** When the policy loads, [Provision] returns nil and installs it;
    the target, the registry and the servers already built stay as they
    are (a server built before keeps the policy it was built with), and
    the server built by the next first request of any domain gets the
    loaded policy, the apex domain as cookie domain, and the secure,
    dynamic-domain and robots flags set. *)
Theorem provisioned_policy_reaches_new_servers (w : World) (policy : nat) :
  LoadPoliciesOrDefault "" DefaultDifficulty = inr policy ->
  exists w1,
    Provision LoadPoliciesOrDefault DefaultDifficulty w = Some (None, w1) /\
    AnubisPolicy (mw w1) = Some policy /\
    Target (mw w1) = Target (mw w) /\
    registry w1 = registry w /\
    heap w1 = heap w /\
    forall r next d,
      DomainFromRequest r = Some d ->
      registry w !! d = None ->
      libanubis_New (length (constructions (trace w)))
        (mkOptions d true true (Some policy) true) = None ->
      exists w2,
        ServeHTTP libanubis_New engine r next w1 = Some (None, w2) /\
        registry w2 !! d = Some (length (heap w)) /\
        heap w2 !! length (heap w) = Some (mkOptions d true true (Some policy) true).
Proof.
  intros Hl. unfold Provision, bind, logInfo, emit, getM, putM, ret. rewrite Hl.
  eexists. split; [reflexivity|]. cbn [mw heap trace AnubisPolicy Target].
  split; [done|]. split; [done|]. split; [done|]. split; [done|].
  intros r next d Hd Hr Hn.
  match goal with
  | |- context [ServeHTTP _ _ _ _ ?x] => set (w1 := x)
  end.
  destruct (ServeHTTP_fresh libanubis_New engine r next d w1 Hd Hr Hn)
    as (evs & E & _).
  eexists. split; [exact E|]. split.
  - unfold registry. cbn -[lookup]. apply lookup_insert_eq.
  - cbn [served heap]. unfold w1. cbn [heap]. by apply list_lookup_middle.
Qed.

End ProvisionFacts.

(** * The further properties on concrete runs *)

Section MoreConcreteRuns.

Import Double Loader.

Lemma registered_servers_persist_witness :
  exists es w',
    serveAll newFails passAll [(reqD, okNext); (reqB, failingNext)] oneTenant
    = Some (es, w') /\
    registry w' !! "example.com" = Some 0%nat.
Proof.
  eexists _, _. split; [vm_compute; reflexivity|].
  eapply (registered_servers_persist newFails passAll
            [(reqD, okNext); (reqB, failingNext)] oneTenant).
  - vm_compute. reflexivity.
  - vm_compute. reflexivity.
Defined.

Lemma other_domains_untouched_witness :
  exists res w',
    ServeHTTP newOk passAll reqD okNext oneTenant = Some (res, w') /\
    registry w' !! "example.com" = registry oneTenant !! "example.com".
Proof.
  eexists _, _. split; [vm_compute; reflexivity|].
  eapply (other_domains_untouched newOk passAll oneTenant _ reqD okNext _
            "other.org" "example.com").
  - reflexivity.
  - vm_compute. reflexivity.
  - discriminate.
Defined.

Lemma failed_creation_serves_nothing_witness :
  exists w',
    ServeHTTP newFails passAll reqA okNext (newMiddleware (Some "https://qwant.com") None)
    = Some (Some "bad options", w') /\
    dispatches (trace w') = [] /\
    redirects (trace w') = [] /\
    nextCalls (trace w') = [].
Proof.
  destruct (failed_creation_serves_nothing newFails passAll
              (newMiddleware (Some "https://qwant.com") None)
              "example.com" "bad options" reqA okNext eq_refl eq_refl eq_refl)
    as (w' & E & Hd & Hr & Hn & _).
  exists w'. split; [exact E|]. split; [exact Hd|]. split; [exact Hr | exact Hn].
Defined.

Lemma challenged_request_goes_nowhere_witness :
  exists w',
    ServeHTTP newOk challengeAll reqA failingNext
      (newMiddleware (Some "https://qwant.com") None)
    = Some (None, w') /\
    redirects (trace w') = [] /\
    nextCalls (trace w') = [].
Proof.
  destruct (challenged_request_goes_nowhere newOk challengeAll
              (newMiddleware (Some "https://qwant.com") None)
              "example.com" reqA failingNext eq_refl (or_intror eq_refl))
    as (p & evs & w' & E & Ht & _ & H).
  destruct H as (Hr & Hn & _); [discriminate|].
  exists w'. split; [exact E|]. rewrite Ht. cbn [newMiddleware trace].
  rewrite !app_nil_r. split; [exact Hr | exact Hn].
Defined.

Lemma requests_reach_their_own_domain_witness :
  exists es w',
    serveAll newFailsOnce passAll
      [(reqD, okNext); (reqA, okNext); (reqD, okNext); (reqB, failingNext)]
      (newMiddleware None None)
    = Some (es, w') /\
    forall p r, (p, r) ∈ dispatches (trace w') ->
      exists o, heap w' !! p = Some o /\
                DomainFromRequest r = Some (CookieDomain o).
Proof.
  eexists _, _. split; [vm_compute; reflexivity|].
  eapply (requests_reach_their_own_domain newFailsOnce passAll
            [(reqD, okNext); (reqA, okNext); (reqD, okNext); (reqB, failingNext)]
            (newMiddleware None None)).
  - apply newMiddleware_isolated.
  - vm_compute. reflexivity.
Defined.

Lemma provision_failure_changes_nothing_witness :
  exists w',
    Provision loadFails 4 (newMiddleware (Some "https://qwant.com") None)
    = Some (Some "malformed policy", w') /\
    mw w' = mw (newMiddleware (Some "https://qwant.com") None).
Proof.
  destruct (provision_failure_changes_nothing loadFails 4
              (newMiddleware (Some "https://qwant.com") None)
              "malformed policy" eq_refl)
    as (w' & E & Hm & _).
  exists w'. split; [exact E | exact Hm].
Defined.

Lemma provisioned_policy_reaches_new_servers_witness :
  exists w1 w2,
    Provision loadOk 4 (newMiddleware None None) = Some (None, w1) /\
    ServeHTTP newOk passAll reqD okNext w1 = Some (None, w2) /\
    heap w2 !! 0%nat = Some (mkOptions "other.org" true true (Some 7%nat) true).
Proof.
  destruct (provisioned_policy_reaches_new_servers loadOk 4 newOk passAll
              (newMiddleware None None) 7%nat eq_refl)
    as (w1 & E & _ & _ & _ & _ & H).
  destruct (H reqD okNext "other.org" eq_refl eq_refl eq_refl) as (w2 & E2 & _ & Hh).
  exists w1, w2. split; [exact E|]. split; [exact E2 | exact Hh].
Defined.

End MoreConcreteRuns.

(** * Two more edges *)

Section Edges.

#[local] Arguments String.append : simpl nomatch.

Variable libanubis_New : nat -> Options -> option string.
Variable engine : nat -> ServerPtr -> Request -> Verdict.

(** A host written with a trailing dot, [s.l1.], with no port and no
    bracket, resolves to its last label and the dot, [l1.]: the empty
    label after the last dot counts as one of the two labels kept. *)
Theorem trailing_dot_keeps_last_label_only (s l1 path : string) :
  hasByte "." l1 = false ->
  hasByte ":" (s +:+ String "." (l1 +:+ ".")) = false ->
  HasPrefix (s +:+ String "." (l1 +:+ ".")) "[" = false ->
  DomainFromRequest (mkRequest (s +:+ String "." (l1 +:+ ".")) path)
  = Some (l1 +:+ ".").
Proof.
  intros H1 Hc Hp.
  rewrite (DomainFromRequest_split (mkRequest _ path)
             (s +:+ String "." (l1 +:+ ".")) "").
  - by rewrite (splitSub_two_labels s l1 "" H1 eq_refl).
  - apply splitHostPort_no_port.
    + by apply stripPort_no_colon.
    + by apply stripBrackets_plain.
Qed.

Lemma trailing_dot_keeps_last_label_only_witness :
  DomainFromRequest (mkRequest "www.example.com." "/") = Some "com.".
Proof.
  exact (trailing_dot_keeps_last_label_only "www.example" "com" "/"
           eq_refl eq_refl eq_refl).
Defined.

(** A request for a domain that has a server never calls
    [libanubis.New], also when the constructor would fail by now: it
    returns nil, is dispatched to the registered server, and leaves the
    registry and the servers built so far as they are. *)
Theorem registered_domain_needs_no_construction (w : World) (d : string)
    (p : ServerPtr) (r : Request) (next : Handler) :
  DomainFromRequest r = Some d ->
  registry w !! d = Some p ->
  exists evs w',
    ServeHTTP libanubis_New engine r next w = Some (None, w') /\
    trace w' = evs ++ trace w /\
    constructions evs = [] /\
    dispatches evs = [(p, r)] /\
    heap w' = heap w /\
    registry w' = registry w.
Proof.
  intros Hd Hr.
  destruct (ServeHTTP_registered libanubis_New engine r next d p w Hd Hr)
    as (evs & E & Hc & Hp & _).
  exists evs. eexists. split; [exact E|]. done.
Qed.

End Edges.

Section EdgesConcrete.

Import Double Loader.

Lemma registered_domain_needs_no_construction_witness :
  exists evs w',
    ServeHTTP newFails passAll reqB okNext oneTenant = Some (None, w') /\
    constructions evs = [] /\
    dispatches evs = [(0%nat, reqB)].
Proof.
  destruct (registered_domain_needs_no_construction newFails passAll oneTenant
              "example.com" 0%nat reqB okNext eq_refl eq_refl)
    as (evs & w' & E & _ & Hc & Hp & _).
  exists evs, w'. split; [exact E|]. split; [exact Hc | exact Hp].
Defined.

End EdgesConcrete.
